(** * ThreadManager: a shallow embedding of the worker-pool scheduler

    The development follows the C++ sources of the repository:
    [Mutex.h] (Mutex, Guard), the Monitor implementation, and the
    ThreadManager implementation (Impl, Task, Worker).

    Every member function that runs under the manager mutex is embedded as
    a function from the manager record to a _segment_: the manager record at
    the point where the mutex is released (return, throw, or a wait on a
    monitor), the effects performed meanwhile in program order
    (notifications, callbacks, joins, thread starts, stores into [state_])
    and what the calling thread does next.  Concurrency is the interleaving
    of such segments; a thread waiting on a monitor may take the mutex
    again at any time, as a condition variable allows. *)

From Stdlib Require Import ZArith List Bool Lia.
From stdpp Require Import base decidable option list gmap sets.

Local Open Scope Z_scope.

(** ** Machine integers

    [size_t] is a 64-bit unsigned integer; counters are kept in [Z] and
    every operation that can leave the range is wrapped. *)

Definition size_t_modulus : Z := 2 ^ 64.

Definition wrap (z : Z) : Z := z mod size_t_modulus.

Definition is_size_t (z : Z) : Prop := 0 <= z < size_t_modulus.

(** ** Opaque handles *)

(** [shared_ptr<Runnable>] compared by reference identity. *)
Definition Runnable := nat.

(** [shared_ptr<Thread>]; a started thread is identified with its
    [std::thread::id], which [Thread::getId] returns. *)
Definition Thread := positive.
Definition id_t := positive.

Definition getId (t : Thread) : id_t := t.

(** [std::chrono::steady_clock::time_point], in milliseconds. *)
Definition time_point := Z.

(** ** ThreadFactory.h *)

Record ThreadFactory := mkThreadFactory { detached_ : bool }.

Definition isDetached (f : ThreadFactory) : bool := detached_ f.

(** [ThreadFactory::getCurrentThreadId] returns [std::this_thread::get_id()]:
    the id of the calling thread, whatever the factory. *)
Definition getCurrentThreadId (caller : id_t) : id_t := caller.

(** ** Mutex.h

    [Mutex] wraps [std::timed_mutex].  Its behaviour towards one caller is
    determined by how long the mutex stays owned by other threads:
    [Some d] when it becomes free [d] milliseconds from now, [None] when it
    is never released. *)

Module Mutex.

Inductive outcome :=
| Locked (waited : Z)       (* the caller owns the mutex after [waited] ms *)
| NotLocked (waited : Z)    (* gave up after [waited] ms *)
| Blocked.                  (* the call never returns *)

Definition lock (avail : option Z) : outcome :=
  match avail with
  | Some d => Locked d
  | None => Blocked
  end.

Definition trylock (avail : option Z) : outcome :=
  match avail with
  | Some d => if d <=? 0 then Locked 0 else NotLocked 0
  | None => NotLocked 0
  end.

Definition timedlock (milliseconds : Z) (avail : option Z) : outcome :=
  match avail with
  | Some d => if d <=? milliseconds then Locked d else NotLocked milliseconds
  | None => NotLocked milliseconds
  end.

End Mutex.

Module Guard.

(** [Guard::Guard(const Mutex &value, int64_t timeout = 0)] *)
Definition ctor (timeout : Z) (avail : option Z) : Mutex.outcome :=
  if timeout =? 0 then Mutex.lock avail
  else if timeout <? 0 then Mutex.trylock avail
  else Mutex.timedlock timeout avail.

(** [Guard::operator bool] *)
Definition holds (g : Mutex.outcome) : bool :=
  match g with
  | Mutex.Locked _ => true
  | _ => false
  end.

Definition waited (g : Mutex.outcome) : option Z :=
  match g with
  | Mutex.Locked w | Mutex.NotLocked w => Some w
  | Mutex.Blocked => None
  end.

End Guard.

(** ** ThreadManager::Task *)

Module Task.

Inductive STATE := WAITING | EXECUTING | TIMEDOUT | COMPLETE.

Record t := mk {
  runnable_ : Runnable;
  state_ : STATE;
  expireTime_ : option time_point
}.

(** [Task(runnable, expiration)].  The [int64_t] argument of [add] goes
    through [uint64_t] and back into [std::chrono::milliseconds], which
    is the identity on the 64-bit pattern. *)
Definition new (runnable : Runnable) (expiration : Z) (now : time_point) : t :=
  mk runnable WAITING
     (if expiration =? 0 then None else Some (now + expiration)).

Definition getRunnable (task : t) : Runnable := runnable_ task.

(** [task->getExpireTime() && *(task->getExpireTime()) < now] *)
Definition expired (now : time_point) (task : t) : bool :=
  match expireTime_ task with
  | Some e => e <? now
  | None => false
  end.

Definition set_state (s : STATE) (task : t) : t :=
  mk (runnable_ task) s (expireTime_ task).

Definition STATE_eqb (a b : STATE) : bool :=
  match a, b with
  | WAITING, WAITING | EXECUTING, EXECUTING
  | TIMEDOUT, TIMEDOUT | COMPLETE, COMPLETE => true
  | _, _ => false
  end.

End Task.

(** ** ThreadManager::STATE *)

Inductive STATE :=
  UNINITIALIZED | STARTING | STARTED | JOINING | STOPPING | STOPPED.

Definition STATE_eqb (a b : STATE) : bool :=
  match a, b with
  | UNINITIALIZED, UNINITIALIZED | STARTING, STARTING | STARTED, STARTED
  | JOINING, JOINING | STOPPING, STOPPING | STOPPED, STOPPED => true
  | _, _ => false
  end.

(** ** ThreadManager::Impl: the fields *)

Record Impl := mkImpl {
  workerCount_ : Z;
  workerMaxCount_ : Z;
  idleCount_ : Z;
  pendingTaskCountMax_ : Z;
  expiredCount_ : Z;
  expireCallback_ : bool;              (* is the std::function non-empty *)
  state_ : STATE;
  threadFactory_ : option ThreadFactory;
  tasks_ : list Task.t;                (* std::deque, front first *)
  workers_ : gset Thread;
  deadWorkers_ : gset Thread;
  idMap_ : gmap id_t Thread
}.

(** [Impl::Impl()] *)
Definition Impl_new : Impl :=
  mkImpl 0 0 0 0 0 false UNINITIALIZED None [] ∅ ∅ ∅.

Definition set_workerCount (v : Z) (m : Impl) : Impl :=
  mkImpl v (workerMaxCount_ m) (idleCount_ m) (pendingTaskCountMax_ m)
         (expiredCount_ m) (expireCallback_ m) (state_ m) (threadFactory_ m)
         (tasks_ m) (workers_ m) (deadWorkers_ m) (idMap_ m).

Definition set_workerMaxCount (v : Z) (m : Impl) : Impl :=
  mkImpl (workerCount_ m) v (idleCount_ m) (pendingTaskCountMax_ m)
         (expiredCount_ m) (expireCallback_ m) (state_ m) (threadFactory_ m)
         (tasks_ m) (workers_ m) (deadWorkers_ m) (idMap_ m).

Definition set_idleCount (v : Z) (m : Impl) : Impl :=
  mkImpl (workerCount_ m) (workerMaxCount_ m) v (pendingTaskCountMax_ m)
         (expiredCount_ m) (expireCallback_ m) (state_ m) (threadFactory_ m)
         (tasks_ m) (workers_ m) (deadWorkers_ m) (idMap_ m).

Definition set_pendingTaskCountMax (v : Z) (m : Impl) : Impl :=
  mkImpl (workerCount_ m) (workerMaxCount_ m) (idleCount_ m) v
         (expiredCount_ m) (expireCallback_ m) (state_ m) (threadFactory_ m)
         (tasks_ m) (workers_ m) (deadWorkers_ m) (idMap_ m).

Definition set_expiredCount (v : Z) (m : Impl) : Impl :=
  mkImpl (workerCount_ m) (workerMaxCount_ m) (idleCount_ m)
         (pendingTaskCountMax_ m) v (expireCallback_ m) (state_ m)
         (threadFactory_ m) (tasks_ m) (workers_ m) (deadWorkers_ m) (idMap_ m).

Definition set_expireCallback (v : bool) (m : Impl) : Impl :=
  mkImpl (workerCount_ m) (workerMaxCount_ m) (idleCount_ m)
         (pendingTaskCountMax_ m) (expiredCount_ m) v (state_ m)
         (threadFactory_ m) (tasks_ m) (workers_ m) (deadWorkers_ m) (idMap_ m).

Definition set_state (v : STATE) (m : Impl) : Impl :=
  mkImpl (workerCount_ m) (workerMaxCount_ m) (idleCount_ m)
         (pendingTaskCountMax_ m) (expiredCount_ m) (expireCallback_ m) v
         (threadFactory_ m) (tasks_ m) (workers_ m) (deadWorkers_ m) (idMap_ m).

Definition set_threadFactory (v : option ThreadFactory) (m : Impl) : Impl :=
  mkImpl (workerCount_ m) (workerMaxCount_ m) (idleCount_ m)
         (pendingTaskCountMax_ m) (expiredCount_ m) (expireCallback_ m)
         (state_ m) v (tasks_ m) (workers_ m) (deadWorkers_ m) (idMap_ m).

Definition set_tasks (v : list Task.t) (m : Impl) : Impl :=
  mkImpl (workerCount_ m) (workerMaxCount_ m) (idleCount_ m)
         (pendingTaskCountMax_ m) (expiredCount_ m) (expireCallback_ m)
         (state_ m) (threadFactory_ m) v (workers_ m) (deadWorkers_ m) (idMap_ m).

Definition set_workers (v : gset Thread) (m : Impl) : Impl :=
  mkImpl (workerCount_ m) (workerMaxCount_ m) (idleCount_ m)
         (pendingTaskCountMax_ m) (expiredCount_ m) (expireCallback_ m)
         (state_ m) (threadFactory_ m) (tasks_ m) v (deadWorkers_ m) (idMap_ m).

Definition set_deadWorkers (v : gset Thread) (m : Impl) : Impl :=
  mkImpl (workerCount_ m) (workerMaxCount_ m) (idleCount_ m)
         (pendingTaskCountMax_ m) (expiredCount_ m) (expireCallback_ m)
         (state_ m) (threadFactory_ m) (tasks_ m) (workers_ m) v (idMap_ m).

Definition set_idMap (v : gmap id_t Thread) (m : Impl) : Impl :=
  mkImpl (workerCount_ m) (workerMaxCount_ m) (idleCount_ m)
         (pendingTaskCountMax_ m) (expiredCount_ m) (expireCallback_ m)
         (state_ m) (threadFactory_ m) (tasks_ m) (workers_ m) (deadWorkers_ m) v.

(** [tasks_.size()] *)
Definition tasks_size (m : Impl) : Z := Z.of_nat (length (tasks_ m)).

(** ** Effects, exceptions and segments *)

(** The three monitors of [Impl]; all of them are built on [mutex_]. *)
Inductive Mon := monitor_ | maxMonitor_ | workerMonitor_.

Inductive Event :=
| Notify (c : Mon)            (* c.notify() *)
| NotifyAll (c : Mon)         (* c.notifyAll() *)
| Expire (r : Runnable)       (* expireCallback_(r) *)
| StartThread (t : Thread)    (* t->start() *)
| Join (t : Thread)           (* t->join() *)
| Assign (s : STATE).         (* state_ = s *)

(** Every [throw] of the sources is a [std::exception]; the constructor
    records which one, with the names of the header's documentation. *)
Inductive exn :=
| TooManyPendingTasks   (* add: the guard failed, or the backlog is full *)
| NotStarted            (* "... ThreadManager not started" *)
| InvalidArgument       (* start without factory, removeWorker, threadFactory *)
| TimedOut.             (* Monitor::wait: THRIFT_ETIMEDOUT *)

(** Where a thread that gave up the mutex resumes. *)
Inductive Cont :=
| K_start                                  (* start: while (state_ == STARTING) *)
| K_addWorker                              (* addWorker: workerMonitor_.wait() *)
| K_removeWorkers (stopping : bool)        (* removeWorkersUnderLock: workerMonitor_.wait() *)
| K_add (caller : id_t) (value : Runnable) (timeout expiration : Z)
                                           (* add: maxMonitor_.wait(timeout) *)
| K_run (self : Thread)                    (* Worker::run: Guard g(manager_->mutex_) *)
| K_idle (self : Thread)                   (* Worker::run: monitor_.wait() *)
| K_task (self : Thread) (task : Task.t).  (* Worker::run: task->run() without the lock *)

Inductive Status :=
| Returned (r : option Runnable)      (* normal return, with the result if any *)
| Thrown (e : exn)
| Waiting (c : Mon) (ms : Z) (k : Cont)  (* c.wait(ms); ms = 0 waits forever *)
| Unlocked (k : Cont)                 (* mutex_.unlock() by hand *)
| OnMutex                             (* Guard: lock() that never returns *)
| Fault.                              (* dereference of an empty shared_ptr *)

Record Seg := mkSeg {
  st : Impl;
  evs : list Event;
  res : Status
}.

(** Prefix a segment with effects already performed. *)
Definition after (es : list Event) (s : Seg) : Seg :=
  mkSeg (st s) (es ++ evs s) (res s).

Definition ret (m : Impl) (es : list Event) : Seg := mkSeg m es (Returned None).

Definition throw (e : exn) (m : Impl) (es : list Event) : Seg :=
  mkSeg m es (Thrown e).

(** [Monitor::wait(timeout)]: a zero timeout is [waitForever], which only
    returns 0; otherwise [wait_for] may report a timeout, which is thrown. *)
Module Monitor.

Definition wait (timeout_ms : Z) (timedout : bool) : option exn :=
  if timeout_ms =? 0 then None
  else if timedout then Some TimedOut else None.

End Monitor.

(** ** Impl: accessors and setters *)

Definition workerCount (m : Impl) : Z := workerCount_ m.
Definition idleWorkerCount (m : Impl) : Z := idleCount_ m.
Definition pendingTaskCount (m : Impl) : Z := tasks_size m.
Definition expiredTaskCount (m : Impl) : Z := expiredCount_ m.

Definition totalTaskCount (m : Impl) : Z :=
  wrap (wrap (tasks_size m + workerCount_ m) - idleCount_ m).

Definition pendingTaskCountMax (value : Z) (m : Impl) : Seg :=
  ret (set_pendingTaskCountMax value m) [].

Definition setExpireCallback (expireCallback : bool) (m : Impl) : Seg :=
  ret (set_expireCallback expireCallback m) [].

(** [threadFactory(value)]: the test short-circuits on an empty current
    factory; with a current factory, [value] is dereferenced. *)
Definition threadFactory (value : option ThreadFactory) (m : Impl) : Seg :=
  match threadFactory_ m, value with
  | Some cur, None => mkSeg m [] Fault
  | Some cur, Some v =>
      if negb (eqb (isDetached cur) (isDetached v))
      then throw InvalidArgument m []
      else ret (set_threadFactory value m) []
  | None, _ => ret (set_threadFactory value m) []
  end.

(** ** Impl::removeExpired

    The loop over [tasks_]: [it] is the part of the queue not yet visited,
    [count] the running value of [expiredCount_].  It returns the tasks
    that stay (from [it] on), the counter and the callbacks made. *)
Fixpoint removeExpired_loop (justOne callback : bool) (now : time_point)
    (it : list Task.t) (count : Z) : list Task.t * Z * list Event :=
  match it with
  | [] => ([], count, [])
  | task :: rest =>
      if Task.expired now task then
        let cb := if callback then [Expire (Task.getRunnable task)] else [] in
        if justOne then (rest, wrap (count + 1), cb)
        else
          let '(keep, count', es) :=
            removeExpired_loop justOne callback now rest (wrap (count + 1)) in
          (keep, count', cb ++ es)
      else
        let '(keep, count', es) :=
          removeExpired_loop justOne callback now rest count in
        (task :: keep, count', es)
  end.

Definition removeExpired (justOne : bool) (now : time_point) (m : Impl)
    : Impl * list Event :=
  let '(keep, count, es) :=
    removeExpired_loop justOne (expireCallback_ m) now (tasks_ m)
                       (expiredCount_ m) in
  (set_expiredCount count (set_tasks keep m), es).

Definition removeExpiredTasks (now : time_point) (m : Impl) : Seg :=
  let '(m', es) := removeExpired false now m in ret m' es.

(** ** Impl::add *)

Definition canSleep (caller : id_t) (m : Impl) : bool :=
  bool_decide (idMap_ m !! getCurrentThreadId caller = None).

(** [pendingTaskCountMax_ > 0 && tasks_.size() >= pendingTaskCountMax_] *)
Definition at_cap (m : Impl) : bool :=
  (0 <? pendingTaskCountMax_ m) && (pendingTaskCountMax_ m <=? tasks_size m).

(** The first [if] of [add]: at the limit, one expired task is removed. *)
Definition admission_sweep (now : time_point) (m : Impl) : Impl * list Event :=
  if at_cap m then removeExpired true now m else (m, []).

(** [tasks_.push_back(...)] and the notification of an idle worker. *)
Definition add_push (value : Runnable) (expiration : Z) (now : time_point)
    (m : Impl) : Seg :=
  ret (set_tasks (tasks_ m ++ [Task.new value expiration now]) m)
      (if 0 <? idleCount_ m then [Notify monitor_] else []).

(** The [while] around [maxMonitor_.wait(timeout)], at its test. *)
Definition add_wait (caller : id_t) (value : Runnable) (timeout expiration : Z)
    (now : time_point) (m : Impl) : Seg :=
  if at_cap m
  then mkSeg m [] (Waiting maxMonitor_ timeout (K_add caller value timeout expiration))
  else add_push value expiration now m.

(** [add] once the guard holds the mutex. *)
Definition add_locked (caller : id_t) (value : Runnable) (timeout expiration : Z)
    (now : time_point) (m : Impl) : Seg :=
  if negb (STATE_eqb (state_ m) STARTED) then throw NotStarted m []
  else
    let '(m1, es) := admission_sweep now m in
    if at_cap m1 then
      if canSleep caller m1 && (0 <=? timeout)
      then after es (add_wait caller value timeout expiration now m1)
      else throw TooManyPendingTasks m1 es
    else after es (add_push value expiration now m1).

Definition add (caller : id_t) (value : Runnable) (timeout expiration : Z)
    (avail : option Z) (now : time_point) (m : Impl) : Seg :=
  match Guard.ctor timeout avail with
  | Mutex.Locked _ => add_locked caller value timeout expiration now m
  | Mutex.NotLocked _ => throw TooManyPendingTasks m []
  | Mutex.Blocked => mkSeg m [] OnMutex
  end.

(** [maxMonitor_.wait(timeout)] has returned or thrown. *)
Definition add_resume (caller : id_t) (value : Runnable) (timeout expiration : Z)
    (timedout : bool) (now : time_point) (m : Impl) : Seg :=
  match Monitor.wait timeout timedout with
  | Some e => throw e m []
  | None => add_wait caller value timeout expiration now m
  end.

(** ** Impl::remove, Impl::removeNextPending *)

Fixpoint erase_first (task : Runnable) (it : list Task.t) : list Task.t :=
  match it with
  | [] => []
  | x :: rest =>
      if Nat.eqb (Task.getRunnable x) task then rest
      else x :: erase_first task rest
  end.

Definition remove (task : Runnable) (m : Impl) : Seg :=
  if negb (STATE_eqb (state_ m) STARTED) then throw NotStarted m []
  else ret (set_tasks (erase_first task (tasks_ m)) m) [].

Definition removeNextPending (m : Impl) : Seg :=
  if negb (STATE_eqb (state_ m) STARTED) then throw NotStarted m []
  else
    match tasks_ m with
    | [] => mkSeg m [] (Returned None)
    | task :: rest =>
        mkSeg (set_tasks rest m) [] (Returned (Some (Task.getRunnable task)))
    end.

(** ** Impl::start, Impl::stop *)

(** The closing [while (state_ == STARTING) monitor_.wait()] of [start]. *)
Definition start_wait (m : Impl) : Seg :=
  if STATE_eqb (state_ m) STARTING
  then mkSeg m [] (Waiting monitor_ 0 K_start)
  else ret m [].

Definition start (m : Impl) : Seg :=
  if STATE_eqb (state_ m) STOPPED then ret m []
  else if STATE_eqb (state_ m) UNINITIALIZED then
    match threadFactory_ m with
    | None => throw InvalidArgument m []
    | Some _ =>
        after [Assign STARTED; NotifyAll monitor_]
              (start_wait (set_state STARTED m))
    end
  else start_wait m.

(** ** Impl::removeWorkersUnderLock *)

(** [idMap_.insert(pair)]: a key already present keeps its value. *)
Definition idMap_insert (k : id_t) (t : Thread) (idm : gmap id_t Thread)
    : gmap id_t Thread :=
  match idm !! k with
  | Some _ => idm
  | None => <[k := t]> idm
  end.

(** The final loop over [deadWorkers_], then [deadWorkers_.clear()]. *)
Definition drainDeadWorkers (m : Impl) : Seg :=
  let dead := elements (deadWorkers_ m) in
  match dead, threadFactory_ m with
  | [], _ => ret (set_deadWorkers ∅ m) []
  | _ :: _, None => mkSeg m [] Fault
  | _ :: _, Some f =>
      let idm := foldr (fun w acc => delete (getId w) acc) (idMap_ m) dead in
      let ws := foldr (fun w acc => acc ∖ {[ w ]}) (workers_ m) dead in
      ret (set_deadWorkers ∅ (set_workers ws (set_idMap idm m)))
          (if isDetached f then [] else map Join dead)
  end.

(** The [while (workerCount_ != workerMaxCount_) workerMonitor_.wait()] of
    [removeWorkersUnderLock], at its test, and what follows. *)
Definition removeWorkers_wait (m : Impl) : Seg :=
  if negb (workerCount_ m =? workerMaxCount_ m)
  then mkSeg m [] (Waiting workerMonitor_ 0 (K_removeWorkers false))
  else drainDeadWorkers m.

(** The notifications on [monitor_] that wake the sleeping workers. *)
Definition wake_sleepers (value : Z) (m : Impl) : list Event :=
  if value <? idleCount_ m
  then repeat (Notify monitor_) (Z.to_nat value)
  else [NotifyAll monitor_].

Definition removeWorkersUnderLock (value : Z) (m : Impl) : Seg :=
  if workerMaxCount_ m <? value then throw InvalidArgument m []
  else
    (* no wrap: value <= workerMaxCount_ *)
    let m1 := set_workerMaxCount (workerMaxCount_ m - value) m in
    after (wake_sleepers value m1) (removeWorkers_wait m1).

Definition removeWorker (value : Z) (m : Impl) : Seg :=
  removeWorkersUnderLock value m.

(** What [stop] does with the outcome of [removeWorkersUnderLock]: when
    it returns, [state_ = STOPPED]; when it waits, so does [stop]; an
    exception leaves [stop] at once. *)
Definition then_stopped (s : Seg) : Seg :=
  match res s with
  | Returned _ => mkSeg (set_state STOPPED (st s)) (evs s ++ [Assign STOPPED])
                        (Returned None)
  | Waiting c ms (K_removeWorkers _) =>
      mkSeg (st s) (evs s) (Waiting c ms (K_removeWorkers true))
  | _ => s
  end.

Definition stop (m : Impl) : Seg :=
  let doStop :=
    negb (STATE_eqb (state_ m) STOPPING) && negb (STATE_eqb (state_ m) JOINING)
    && negb (STATE_eqb (state_ m) STOPPED) in
  if doStop then
    after [Assign JOINING]
      (then_stopped
         (removeWorkersUnderLock (workerCount_ m) (set_state JOINING m)))
  else ret (set_state STOPPED m) [Assign STOPPED].

Definition removeWorkers_resume (stopping : bool) (m : Impl) : Seg :=
  if stopping then then_stopped (removeWorkers_wait m)
  else removeWorkers_wait m.

(** ** Impl::addWorker

    [newThreads] are the threads the factory produced, [value] of them. *)

Definition addWorker_wait (m : Impl) : Seg :=
  if negb (workerCount_ m =? workerMaxCount_ m)
  then mkSeg m [] (Waiting workerMonitor_ 0 K_addWorker)
  else ret m [].

Definition addWorker (newThreads : list Thread) (m : Impl) : Seg :=
  let value := Z.of_nat (length newThreads) in
  match newThreads, threadFactory_ m with
  | _ :: _, None => mkSeg m [] Fault
  | _, _ =>
      let m1 := set_workerMaxCount (wrap (workerMaxCount_ m + value)) m in
      let m2 := set_workers (workers_ m1 ∪ list_to_set newThreads) m1 in
      let idm :=
        foldl (fun acc t => idMap_insert (getId t) t acc) (idMap_ m2) newThreads in
      after (map StartThread newThreads) (addWorker_wait (set_idMap idm m2))
  end.

(** ** ThreadManager::Worker *)

Module Worker.

Definition isActive (m : Impl) : bool :=
  (workerCount_ m <=? workerMaxCount_ m)
  || (STATE_eqb (state_ m) JOINING
      && negb (match tasks_ m with [] => true | _ => false end)).

(** The final accounting of [run]. *)
Definition leave (self : Thread) (m : Impl) : Seg :=
  let m1 := set_deadWorkers ({[ self ]} ∪ deadWorkers_ m) m in
  let m2 := set_workerCount (wrap (workerCount_ m1 - 1)) m1 in
  ret m2 (if workerCount_ m2 =? workerMaxCount_ m2
          then [Notify workerMonitor_] else []).

(** The state given to a task taken from the queue. *)
Definition mark (now : time_point) (task : Task.t) : Task.t :=
  if Task.STATE_eqb (Task.state_ task) Task.WAITING
  then Task.set_state
         (if Task.expired now task then Task.TIMEDOUT else Task.EXECUTING)
         task
  else task.

(** The [while (active)] loop of [run] from its head, with the queue
    [queue] in [tasks_].  With an empty queue an active worker sleeps on
    [monitor_]; a task in state EXECUTING makes the worker release the
    mutex; any other task is dropped under the lock and the loop goes
    round again.  An inactive worker leaves the loop. *)
Fixpoint loop (self : Thread) (now : time_point) (queue : list Task.t)
    (m : Impl) : Seg :=
  let m := set_tasks queue m in
  if isActive m then
    match queue with
    | [] =>
        mkSeg (set_idleCount (wrap (idleCount_ m + 1)) m) []
              (Waiting monitor_ 0 (K_idle self))
    | front :: rest =>
        let task := mark now front in
        let m1 := set_tasks rest m in
        let es :=
          if negb (pendingTaskCountMax_ m1 =? 0)
             && (tasks_size m1 <=? pendingTaskCountMax_ m1 - 1)
          then [Notify maxMonitor_] else [] in
        if Task.STATE_eqb (Task.state_ task) Task.EXECUTING then
          mkSeg m1 es (Unlocked (K_task self task))
        else if expireCallback_ m1 then
          after (es ++ [Expire (Task.getRunnable task)])
                (loop self now rest
                      (set_expiredCount (wrap (expiredCount_ m1 + 1)) m1))
        else after es (loop self now rest m1)
    end
  else leave self m.

(** [run], from the acquisition of the mutex. *)
Definition run (self : Thread) (now : time_point) (m : Impl) : Seg :=
  if workerCount_ m <? workerMaxCount_ m then
    let m1 := set_workerCount (wrap (workerCount_ m + 1)) m in
    after (if workerCount_ m1 =? workerMaxCount_ m1
           then [Notify workerMonitor_] else [])
          (loop self now (tasks_ m1) m1)
  else leave self m.

(** [monitor_.wait()] has returned: [active = isActive(); idleCount_--],
    then the test of the inner [while] again.  [isActive] does not read
    [idleCount_], so this is the loop from its head. *)
Definition wake (self : Thread) (now : time_point) (m : Impl) : Seg :=
  let m1 := set_idleCount (wrap (idleCount_ m - 1)) m in
  loop self now (tasks_ m1) m1.

(** [task->run()] is over and [mutex_.lock()] has returned. *)
Definition resume (self : Thread) (now : time_point) (m : Impl) : Seg :=
  loop self now (tasks_ m) m.

End Worker.

(** ** The interleaving of segments

    Between two segments the mutex is free.  A world is the manager and
    the threads that are inside a member function without the mutex. *)

Record World := mkWorld {
  mgr : Impl;
  parked : list Cont
}.

Definition World_new : World := mkWorld Impl_new [].

(** The calls a client thread can make. *)
Inductive Call :=
| C_start
| C_stop
| C_threadFactory (value : option ThreadFactory)
| C_pendingTaskCountMax (value : Z)
| C_setExpireCallback (expireCallback : bool)
| C_addWorker (newThreads : list Thread)
| C_removeWorker (value : Z)
| C_add (caller : id_t) (value : Runnable) (timeout expiration : Z)
        (avail : option Z)
| C_remove (task : Runnable)
| C_removeNextPending
| C_removeExpiredTasks.

Definition call (c : Call) (now : time_point) (m : Impl) : Seg :=
  match c with
  | C_start => start m
  | C_stop => stop m
  | C_threadFactory value => threadFactory value m
  | C_pendingTaskCountMax value => pendingTaskCountMax value m
  | C_setExpireCallback cb => setExpireCallback cb m
  | C_addWorker newThreads => addWorker newThreads m
  | C_removeWorker value => removeWorker value m
  | C_add caller value timeout expiration avail =>
      add caller value timeout expiration avail now m
  | C_remove task => remove task m
  | C_removeNextPending => removeNextPending m
  | C_removeExpiredTasks => removeExpiredTasks now m
  end.

(** A parked thread takes the mutex again.  [timedout] only matters for a
    wait with a timeout. *)
Definition resume (k : Cont) (timedout : bool) (now : time_point) (m : Impl)
    : Seg :=
  match k with
  | K_start => start_wait m
  | K_addWorker => addWorker_wait m
  | K_removeWorkers stopping => removeWorkers_resume stopping m
  | K_add caller value timeout expiration =>
      add_resume caller value timeout expiration timedout now m
  | K_run self => Worker.run self now m
  | K_idle self => Worker.wake self now m
  | K_task self _ => Worker.resume self now m
  end.

(** The threads a segment leaves behind: the caller when it waits, and
    every thread it started, at the entry of [Worker::run]. *)
Definition started (es : list Event) : list Cont :=
  omap (fun e => match e with StartThread t => Some (K_run t) | _ => None end) es.

Definition leftover (s : Seg) : list Cont :=
  match res s with
  | Waiting _ _ k | Unlocked k => [k]
  | _ => []
  end.

Inductive Action :=
| Do (c : Call) (now : time_point)
| Wake (i : nat) (timedout : bool) (now : time_point).

(** A segment that faults or never gets the mutex has no successor. *)
Definition settles (s : Seg) : bool :=
  match res s with
  | Fault | OnMutex => false
  | _ => true
  end.

Definition exec (a : Action) (w : World) : option (Seg * World) :=
  match a with
  | Do c now =>
      let s := call c now (mgr w) in
      if settles s
      then Some (s, mkWorld (st s) (parked w ++ leftover s ++ started (evs s)))
      else None
  | Wake i timedout now =>
      match parked w !! i with
      | Some k =>
          let s := resume k timedout now (mgr w) in
          if settles s
          then Some (s, mkWorld (st s)
                          (delete i (parked w) ++ leftover s ++ started (evs s)))
          else None
      | None => None
      end
  end.

Fixpoint execs (l : list Action) (w : World) : option World :=
  match l with
  | [] => Some w
  | a :: l' =>
      match exec a w with
      | Some (_, w') => execs l' w'
      | None => None
      end
  end.

Definition reachable (w : World) : Prop :=
  exists l, execs l World_new = Some w.

(** ** Vocabulary of the statements *)

(** [n] increments of a [size_t]. *)
Definition bump (n : nat) (count : Z) : Z :=
  Nat.iter n (fun c => wrap (c + 1)) count.

(** The tasks of a queue whose deadline precedes [now], front first. *)
Definition stale (now : time_point) (queue : list Task.t) : list Task.t :=
  List.filter (Task.expired now) queue.

(** The tasks of a queue that have no deadline or one not before [now]. *)
Definition fresh (now : time_point) (queue : list Task.t) : list Task.t :=
  List.filter (fun t => negb (Task.expired now t)) queue.

Definition callbacks (callback : bool) (gone : list Task.t) : list Event :=
  if callback then map (fun t => Expire (Task.getRunnable t)) gone else [].

Definition sample_queue : list Task.t :=
  [ Task.mk 1%nat Task.WAITING (Some 5);
    Task.mk 2%nat Task.WAITING None;
    Task.mk 3%nat Task.WAITING (Some 10);
    Task.mk 4%nat Task.WAITING (Some 7) ].

(** A list of effects that only joins threads. *)
Definition only_joins (es : list Event) : Prop :=
  Forall (fun e => exists t, e = Join t) es.

(** The queue has reached its nonzero cap. *)
Definition backlog_full (m : Impl) : Prop :=
  0 < pendingTaskCountMax_ m /\ pendingTaskCountMax_ m <= tasks_size m.

(** A started manager with two workers, a cap of two and a full queue. *)
Definition full_manager : Impl :=
  mkImpl 2 2 0 2 0 false STARTED (Some (mkThreadFactory false))
         [ Task.mk 1%nat Task.WAITING None; Task.mk 2%nat Task.WAITING (Some 50) ]
         {[ 1%positive; 2%positive ]} ∅
         (<[ 1%positive := 1%positive ]> (<[ 2%positive := 2%positive ]> ∅)).

(** A started manager without cap, one idle worker, one task queued. *)
Definition open_manager : Impl :=
  mkImpl 1 1 1 0 0 false STARTED (Some (mkThreadFactory false))
         [ Task.mk 1%nat Task.WAITING (Some 5) ]
         {[ 1%positive ]} ∅ (<[ 1%positive := 1%positive ]> ∅).

(** A joinable factory. *)
Definition joinable : option ThreadFactory := Some (mkThreadFactory false).

(** Two clients race: one calls [addWorker(2)], the other [removeWorker(1)]
    while the first waits for its workers; then both new threads enter
    [Worker::run]. *)
Definition race_trace : list Action :=
  [ Do (C_threadFactory joinable) 0;
    Do (C_addWorker [1%positive; 2%positive]) 0;
    Do (C_removeWorker 1) 0;
    Wake 2 false 0;     (* thread 2 enters run and goes to sleep *)
    Wake 1 false 0 ].   (* thread 1 enters run and leaves at once *)

(** One worker, no expire callback; a task with a 5 ms lifetime is queued
    at instant 0 and the sleeping worker is woken. *)
Definition expiry_trace : list Action :=
  [ Do (C_threadFactory joinable) 0;
    Do C_start 0;
    Do (C_addWorker [1%positive]) 0;
    Wake 1 false 0;     (* the worker enters run and goes to sleep *)
    Wake 0 false 0;     (* addWorker returns *)
    Do (C_add 9%positive 42%nat 0 5 (Some 0)) 0 ].

(** *** The values of [state_]

    [assigned es] lists the values a segment stores in [state_], in order;
    [visited from es] puts the value on entry in front. *)
Definition assigned (es : list Event) : list STATE :=
  omap (fun e => match e with Assign s => Some s | _ => None end) es.

Definition visited (from : STATE) (es : list Event) : list STATE :=
  from :: assigned es.

(** The four values of [state_] that are ever stored. *)
Definition live (s : STATE) : bool :=
  match s with
  | UNINITIALIZED | STARTED | JOINING | STOPPED => true
  | STARTING | STOPPING => false
  end.

(** The steps of UNINITIALIZED -> STARTED -> JOINING -> STOPPED. *)
Definition forward (a b : STATE) : bool :=
  match a, b with
  | UNINITIALIZED, STARTED | STARTED, JOINING | JOINING, STOPPED => true
  | _, _ => false
  end.

(** One store into [state_]: the same value again, a step of the line
    above, or the shortcut from UNINITIALIZED to JOINING. *)
Definition edge (a b : STATE) : bool :=
  STATE_eqb a b || forward a b
  || (STATE_eqb a UNINITIALIZED && STATE_eqb b JOINING).

Fixpoint chain (l : list STATE) : bool :=
  match l with
  | a :: (b :: _) as l' => edge a b && chain l'
  | _ => true
  end.

(** A segment that leaves [state_] alone: it stores nothing into it, and
    its caller does not go on inside [start] or [stop]. *)
Definition quiet (m : Impl) (s : Seg) : Prop :=
  state_ (st s) = state_ m
  /\ assigned (evs s) = []
  /\ (forall k, In k (leftover s) -> k <> K_removeWorkers true /\ k <> K_start).

(** A manager with a factory, one worker asleep, and [start] never called:
    what [addWorker(1)] on a new manager leaves. *)
Definition unstarted_trace : list Action :=
  [ Do (C_threadFactory joinable) 0;
    Do (C_addWorker [1%positive]) 0;
    Wake 1 false 0;
    Wake 0 false 0 ].

(** What the interleaving keeps true: [state_] holds one of the four live
    values, and while a thread waits inside [stop] it is JOINING or
    STOPPED. *)
Definition stopping_sound (w : World) : Prop :=
  live (state_ (mgr w)) = true
  /\ (In (K_removeWorkers true) (parked w) ->
      state_ (mgr w) = JOINING \/ state_ (mgr w) = STOPPED).

(** What one segment does to [state_], entered with the manager [m]. *)
Definition step_ok (m : Impl) (s : Seg) : Prop :=
  chain (visited (state_ m) (evs s)) = true
  /\ List.last (visited (state_ m) (evs s)) (state_ m) = state_ (st s)
  /\ (forall c ms, res s <> Waiting c ms K_start)
  /\ (state_ m = STOPPED -> state_ (st s) = STOPPED)
  /\ live (state_ (st s)) = true
  /\ (In (K_removeWorkers true) (leftover s) ->
      state_ (st s) = JOINING \/ state_ (st s) = STOPPED).

(** ** SimpleThreadManager

    [start()] is [pendingTaskCountMax(pendingTaskCountMax_)], then
    [Impl::start()], then [addWorker(workerCount_)], each under the mutex on
    its own; an exception ends the sequence.  [supply i] is the [i]-th
    thread the factory makes. *)

Definition addWorker_value (supply : nat -> Thread) (value : Z) (m : Impl) : Seg :=
  addWorker (map supply (seq 0 (Z.to_nat value))) m.

Module SimpleThreadManager.

Record t := mk {
  workerCount_ : Z;
  pendingTaskCountMax_ : Z
}.

Definition start (self : t) (supply : nat -> Thread) (m : Impl) : Seg :=
  let s1 := pendingTaskCountMax (pendingTaskCountMax_ self) m in
  let s2 := start (st s1) in
  match res s2 with
  | Returned _ =>
      after (evs s1 ++ evs s2) (addWorker_value supply (workerCount_ self) (st s2))
  | _ => after (evs s1) s2
  end.

End SimpleThreadManager.

(** ** Vocabulary of the further statements *)

(** The runnables handed to [expireCallback_], in order. *)
Definition expires (es : list Event) : list Runnable :=
  omap (fun e => match e with Expire r => Some r | _ => None end) es.

(** The tasks at the front of a queue whose deadline precedes [now], and
    the queue from the first task that is not so. *)
Fixpoint leading_stale (now : time_point) (queue : list Task.t) : list Task.t :=
  match queue with
  | [] => []
  | task :: rest =>
      if Task.expired now task then task :: leading_stale now rest else []
  end.

Fixpoint after_stale (now : time_point) (queue : list Task.t) : list Task.t :=
  match queue with
  | [] => []
  | task :: rest =>
      if Task.expired now task then after_stale now rest else queue
  end.

Definition waiting (task : Task.t) : Prop := Task.state_ task = Task.WAITING.

(** Calls of [add] one after the other by one client that finds the mutex
    free, and calls of [removeNextPending] one after the other, with what
    each returned. *)
Fixpoint add_each (caller : id_t) (timeout expiration : Z) (now : time_point)
    (values : list Runnable) (m : Impl) : Impl :=
  match values with
  | [] => m
  | value :: rest =>
      add_each caller timeout expiration now rest
               (st (add caller value timeout expiration (Some 0) now m))
  end.

Fixpoint removeNextPending_each (n : nat) (m : Impl)
    : list Status * Impl :=
  match n with
  | O => ([], m)
  | S n' =>
      let s := removeNextPending m in
      let '(rs, m') := removeNextPending_each n' (st s) in
      (res s :: rs, m')
  end.

(** Threads entering [Worker::run] one after the other: the segment of
    each. *)
Fixpoint run_each (threads : list Thread) (now : time_point) (m : Impl)
    : list Seg :=
  match threads with
  | [] => []
  | self :: rest =>
      let s := Worker.run self now m in
      s :: run_each rest now (st s)
  end.

(** The manager after a list of segments that started from [m]. *)
Definition final (m : Impl) (segs : list Seg) : Impl :=
  fold_left (fun _ s => st s) segs m.

(** How a queue may differ from an earlier one: tasks were taken out, and
    at most one new task stands at the tail. *)
Definition queue_evolves (q q' : list Task.t) : Prop :=
  exists kept,
    kept `sublist_of` q
    /\ (q' = kept
        \/ exists value expiration now,
             q' = kept ++ [Task.new value expiration now]).

(** A manager that waits for three workers to come in. *)
Definition hiring_manager : Impl :=
  mkImpl 0 3 0 0 0 false STARTED (Some (mkThreadFactory false)) []
         {[ 1%positive; 2%positive; 3%positive ]} ∅
         (<[ 1%positive := 1%positive ]>
            (<[ 2%positive := 2%positive ]> (<[ 3%positive := 3%positive ]> ∅))).

(** A capped manager whose queue is full and holds a task past its
    deadline at instant 60. *)
Definition stale_manager : Impl :=
  mkImpl 1 1 0 2 0 true STARTED (Some (mkThreadFactory false))
         [ Task.mk 1%nat Task.WAITING None; Task.mk 2%nat Task.WAITING (Some 50) ]
         {[ 1%positive ]} ∅ (<[ 1%positive := 1%positive ]> ∅).

(** Two managers with the same configuration and the same pool registry:
    cap, expire callback, factory, [workerMaxCount_], [workers_] and
    [idMap_]. *)
Definition same_setup (m m' : Impl) : Prop :=
  pendingTaskCountMax_ m' = pendingTaskCountMax_ m
  /\ expireCallback_ m' = expireCallback_ m
  /\ threadFactory_ m' = threadFactory_ m
  /\ workerMaxCount_ m' = workerMaxCount_ m
  /\ workers_ m' = workers_ m
  /\ idMap_ m' = idMap_ m.

(** What the code of tasks and workers does to a manager: the setup
    stays and the queue evolves. *)
Definition tame (m m' : Impl) : Prop :=
  same_setup m m' /\ queue_evolves (tasks_ m) (tasks_ m').

(** What the code of the pool does to a manager: the queue and the
    configuration stay; [workers_] and [idMap_] stay, or lose exactly the
    dead workers, or gain the threads [new]. *)
Definition pool_step (m m' : Impl) : Prop :=
  tasks_ m' = tasks_ m
  /\ pendingTaskCountMax_ m' = pendingTaskCountMax_ m
  /\ expireCallback_ m' = expireCallback_ m
  /\ threadFactory_ m' = threadFactory_ m
  /\ ((workers_ m' = workers_ m /\ idMap_ m' = idMap_ m)
      \/ (workers_ m' = workers_ m ∖ deadWorkers_ m
          /\ forall k, idMap_ m' !! k
                       = if decide (k ∈ deadWorkers_ m) then None
                         else idMap_ m !! k)
      \/ exists new : list Thread,
           workers_ m' = workers_ m ∪ list_to_set new
           /\ forall k, idMap_ m' !! k
                        = match idMap_ m !! k with
                          | Some v => Some v
                          | None => if decide (k ∈ new) then Some k else None
                          end).



(** * Properties *)

Lemma STATE_eqb_eq a b : STATE_eqb a b = true <-> a = b.
Proof. destruct a, b; simpl; split; congruence. Qed.

Lemma STATE_eqb_refl a : STATE_eqb a a = true.
Proof. now destruct a. Qed.

(** ** size_t counters *)

Lemma wrap_small z : is_size_t z -> wrap z = z.
Proof. intros H. apply Z.mod_small. exact H. Qed.

Lemma bump_exact n : forall count,
  0 <= count -> count + Z.of_nat n < size_t_modulus ->
  bump n count = count + Z.of_nat n.
Proof.
  induction n as [|n IH]; intros count H0 Hlt.
  - simpl. lia.
  - unfold bump in *. rewrite Nat.iter_succ, IH by lia.
    rewrite wrap_small; [lia | unfold is_size_t; lia].
Qed.

Lemma bump_shift n count : bump n (wrap (count + 1)) = bump (S n) count.
Proof. unfold bump. now rewrite Nat.iter_succ_r. Qed.

(** ** removeExpired *)

Lemma removeExpired_loop_all callback now : forall it count,
  removeExpired_loop false callback now it count
  = (fresh now it, bump (length (stale now it)) count,
     callbacks callback (stale now it)).
Proof.
  induction it as [|task rest IH]; intros count.
  - destruct callback; reflexivity.
  - unfold stale, fresh in *. cbn [removeExpired_loop List.filter].
    destruct (Task.expired now task) eqn:E; cbn [negb].
    + rewrite IH. cbn [length]. rewrite bump_shift.
      destruct callback; reflexivity.
    + rewrite IH. reflexivity.
Qed.

(** A sweep only touches [tasks_] and [expiredCount_]. *)
Lemma removeExpired_frame justOne now m :
  let m' := fst (removeExpired justOne now m) in
  workerCount_ m' = workerCount_ m /\ workerMaxCount_ m' = workerMaxCount_ m
  /\ idleCount_ m' = idleCount_ m
  /\ pendingTaskCountMax_ m' = pendingTaskCountMax_ m
  /\ expireCallback_ m' = expireCallback_ m /\ state_ m' = state_ m
  /\ threadFactory_ m' = threadFactory_ m /\ workers_ m' = workers_ m
  /\ deadWorkers_ m' = deadWorkers_ m /\ idMap_ m' = idMap_ m.
Proof.
  unfold removeExpired.
  destruct (removeExpired_loop _ _ _ _ _) as [[keep count] es].
  simpl. repeat split.
Qed.

Lemma admission_sweep_frame now m :
  let m' := fst (admission_sweep now m) in
  pendingTaskCountMax_ m' = pendingTaskCountMax_ m /\ state_ m' = state_ m
  /\ idMap_ m' = idMap_ m /\ idleCount_ m' = idleCount_ m.
Proof.
  unfold admission_sweep. destruct (at_cap m).
  - pose proof (removeExpired_frame true now m) as H. simpl in H. simpl. tauto.
  - simpl. tauto.
Qed.

(** C6. For every queue and instant [now], [removeExpiredTasks] returns
    normally and leaves in the queue exactly the tasks whose deadline does
    not precede [now] (no deadline, or a deadline at or after [now]), in
    their original order; it calls [expireCallback_] once per removed task,
    front first, when the callback is set, and not at all otherwise; and it
    adds the number of removed tasks to [expiredCount_] (the counter is a
    [size_t]: the sum is assumed to stay in range).  No other field
    changes. *)
Theorem removeExpiredTasks_sweeps_all (now : time_point) (m : Impl) :
  0 <= expiredCount_ m ->
  expiredCount_ m + Z.of_nat (length (stale now (tasks_ m))) < size_t_modulus ->
  let s := removeExpiredTasks now m in
  res s = Returned None
  /\ tasks_ (st s)
     = List.filter (fun t => negb (Task.expired now t)) (tasks_ m)
  /\ evs s
     = (if expireCallback_ m
        then map (fun t => Expire (Task.getRunnable t))
                 (List.filter (Task.expired now) (tasks_ m))
        else [])
  /\ expiredCount_ (st s)
     = expiredCount_ m
       + Z.of_nat (length (List.filter (Task.expired now) (tasks_ m)))
  /\ st s = set_expiredCount (expiredCount_ (st s))
              (set_tasks (tasks_ (st s)) m).
Proof.
  intros H0 Hlt. unfold removeExpiredTasks, removeExpired.
  rewrite removeExpired_loop_all. cbn.
  rewrite bump_exact by assumption.
  unfold fresh, stale, callbacks. repeat split.
Qed.

Lemma removeExpiredTasks_sweeps_all_witness :
  let m := set_expireCallback true (set_tasks sample_queue Impl_new) in
  let s := removeExpiredTasks 10 m in
  (0 <= expiredCount_ m
   /\ expiredCount_ m + Z.of_nat (length (stale 10 (tasks_ m))) < size_t_modulus)
  /\ res s = Returned None
  /\ tasks_ (st s)
     = [ Task.mk 2%nat Task.WAITING None; Task.mk 3%nat Task.WAITING (Some 10) ]
  /\ evs s = [Expire 1%nat; Expire 4%nat]
  /\ expiredCount_ (st s) = 0 + 2.
Proof.
  cbv zeta. split; [split; [simpl; lia | vm_compute; reflexivity] |].
  destruct (removeExpiredTasks_sweeps_all 10
              (set_expireCallback true (set_tasks sample_queue Impl_new)))
    as (H1 & H2 & H3 & H4 & _).
  - simpl. lia.
  - vm_compute. reflexivity.
  - split; [exact H1 |]. split; [exact H2 |]. split; [exact H3 | exact H4].
Defined.

(** ** removeWorker *)

Lemma drainDeadWorkers_spec m :
  workerMaxCount_ (st (drainDeadWorkers m)) = workerMaxCount_ m
  /\ only_joins (evs (drainDeadWorkers m)).
Proof.
  unfold drainDeadWorkers, only_joins.
  destruct (elements (deadWorkers_ m)) as [|w dead] eqn:E.
  - simpl. split; [reflexivity | constructor].
  - destruct (threadFactory_ m) as [f|]; simpl.
    + split; [reflexivity |].
      destruct (isDetached f); [constructor |].
      constructor; [eauto |]. clear E.
      induction dead as [|d dead IH]; simpl; constructor; eauto.
    + split; [reflexivity | constructor].
Qed.

Lemma removeWorkers_wait_spec m :
  workerMaxCount_ (st (removeWorkers_wait m)) = workerMaxCount_ m
  /\ only_joins (evs (removeWorkers_wait m)).
Proof.
  unfold removeWorkers_wait.
  destruct (negb (workerCount_ m =? workerMaxCount_ m)).
  - simpl. split; [reflexivity | constructor].
  - apply drainDeadWorkers_spec.
Qed.

(** C5. [removeWorker(n)] for a [size_t] [n]: when [n > workerMaxCount_] the
    call throws the invalid-argument exception and the manager is unchanged
    (nothing is notified either); otherwise, when the mutex is next
    released, [workerMaxCount_] has gone down by exactly [n], and
    [monitor_] (the queue monitor) was notified exactly [n] times when
    [idleCount_ > n] and got one [notifyAll] otherwise; whatever else the
    call did before releasing the mutex is joining dead workers. *)
Theorem removeWorker_lowers_max (n : Z) (m : Impl) :
  0 <= n ->
  (workerMaxCount_ m < n ->
     res (removeWorker n m) = Thrown InvalidArgument
     /\ st (removeWorker n m) = m /\ evs (removeWorker n m) = [])
  /\ (n <= workerMaxCount_ m ->
        workerMaxCount_ (st (removeWorker n m)) = workerMaxCount_ m - n
        /\ (n < idleCount_ m ->
              exists wakes rest,
                evs (removeWorker n m) = wakes ++ rest
                /\ wakes = repeat (Notify monitor_) (length wakes)
                /\ Z.of_nat (length wakes) = n
                /\ only_joins rest)
        /\ (idleCount_ m <= n ->
              exists rest,
                evs (removeWorker n m) = NotifyAll monitor_ :: rest
                /\ only_joins rest)).
Proof.
  intros Hn. unfold removeWorker, removeWorkersUnderLock. split.
  - intros Hgt. apply Z.ltb_lt in Hgt. rewrite Hgt. simpl. auto.
  - intros Hle. apply Z.ltb_ge in Hle. rewrite Hle.
    set (m1 := set_workerMaxCount (workerMaxCount_ m - n) m).
    destruct (removeWorkers_wait_spec m1) as [Hmax Hjoin].
    cbn [after st evs]. split; [rewrite Hmax; reflexivity |].
    unfold wake_sleepers. cbn [m1 set_workerMaxCount idleCount_]. split.
    + intros Hidle. apply Z.ltb_lt in Hidle. rewrite Hidle.
      exists (repeat (Notify monitor_) (Z.to_nat n)), (evs (removeWorkers_wait m1)).
      rewrite repeat_length. repeat split; [lia | exact Hjoin].
    + intros Hidle. apply Z.ltb_ge in Hidle. rewrite Hidle.
      exists (evs (removeWorkers_wait m1)). split; [reflexivity | exact Hjoin].
Qed.

Lemma removeWorker_lowers_max_witness :
  0 <= 1
  /\ (workerMaxCount_ full_manager < 1 ->
        res (removeWorker 1 full_manager) = Thrown InvalidArgument
        /\ st (removeWorker 1 full_manager) = full_manager
        /\ evs (removeWorker 1 full_manager) = [])
  /\ (1 <= workerMaxCount_ full_manager ->
        workerMaxCount_ (st (removeWorker 1 full_manager))
        = workerMaxCount_ full_manager - 1
        /\ (1 < idleCount_ full_manager ->
              exists wakes rest,
                evs (removeWorker 1 full_manager) = wakes ++ rest
                /\ wakes = repeat (Notify monitor_) (length wakes)
                /\ Z.of_nat (length wakes) = 1
                /\ only_joins rest)
        /\ (idleCount_ full_manager <= 1 ->
              exists rest,
                evs (removeWorker 1 full_manager) = NotifyAll monitor_ :: rest
                /\ only_joins rest)).
Proof.
  split; [lia |]. apply (removeWorker_lowers_max 1 full_manager). lia.
Defined.

(** ** add *)

Lemma at_cap_true m : at_cap m = true <-> backlog_full m.
Proof.
  unfold at_cap, backlog_full. rewrite andb_true_iff, Z.ltb_lt, Z.leb_le.
  reflexivity.
Qed.

Lemma at_cap_after_sweep now m :
  0 < pendingTaskCountMax_ m ->
  pendingTaskCountMax_ m <= tasks_size (fst (admission_sweep now m)) ->
  at_cap (fst (admission_sweep now m)) = true.
Proof.
  intros Hpos Hfull. apply at_cap_true. unfold backlog_full.
  destruct (admission_sweep_frame now m) as (-> & _). split; assumption.
Qed.

(** C10. With [pendingTaskCountMax_ == 0] and the manager STARTED, once
    the guard of [add] holds the mutex the call returns normally, for every
    timeout and every calling thread: the new task, in state WAITING and
    with its deadline, is appended at the tail of the queue, nothing else
    of the manager changes (in particular [expiredCount_] and the tasks
    already queued: no sweep), no callback is made, and the only effect is
    the notification of [monitor_] when a worker is idle. *)
Theorem add_unbounded_appends (caller : id_t) (value : Runnable)
    (timeout expiration : Z) (avail : option Z) (now : time_point)
    (m : Impl) (w : Z) :
  pendingTaskCountMax_ m = 0 ->
  state_ m = STARTED ->
  Guard.ctor timeout avail = Mutex.Locked w ->
  let s := add caller value timeout expiration avail now m in
  res s = Returned None
  /\ admission_sweep now m = (m, [])
  /\ st s = set_tasks (tasks_ m ++ [Task.new value expiration now]) m
  /\ evs s = (if 0 <? idleCount_ m then [Notify monitor_] else []).
Proof.
  intros Hcap Hst Hg. cbv zeta. unfold add, add_locked. rewrite Hg, Hst.
  cbn [STATE_eqb negb].
  assert (Hnc : at_cap m = false) by (unfold at_cap; rewrite Hcap; reflexivity).
  unfold admission_sweep. rewrite Hnc. rewrite Hnc.
  unfold add_push, after, ret. cbn. repeat split.
Qed.

Lemma add_unbounded_appends_witness :
  (pendingTaskCountMax_ open_manager = 0
   /\ state_ open_manager = STARTED
   /\ Guard.ctor (-1) (Some 0) = Mutex.Locked 0)
  /\ res (add 1%positive 9%nat (-1) 30 (Some 0) 100 open_manager) = Returned None
  /\ admission_sweep 100 open_manager = (open_manager, [])
  /\ st (add 1%positive 9%nat (-1) 30 (Some 0) 100 open_manager)
     = set_tasks (tasks_ open_manager ++ [Task.new 9%nat 30 100]) open_manager
  /\ evs (add 1%positive 9%nat (-1) 30 (Some 0) 100 open_manager)
     = (if 0 <? idleCount_ open_manager then [Notify monitor_] else []).
Proof.
  split; [repeat split |].
  apply (add_unbounded_appends 1%positive 9%nat (-1) 30 (Some 0) 100
           open_manager 0); reflexivity.
Defined.

(** C2. A STARTED manager with a nonzero cap whose queue is still at or
    above the cap after the one-task admission sweep: [add] with
    [timeout = -1] throws the backlog exception, whatever the mutex did.
    The queue it leaves is the queue of the sweep when the guard held the
    mutex and the untouched queue otherwise: no task is appended. *)
Theorem add_fail_fast (caller : id_t) (value : Runnable) (expiration : Z)
    (avail : option Z) (now : time_point) (m : Impl) :
  state_ m = STARTED ->
  0 < pendingTaskCountMax_ m ->
  pendingTaskCountMax_ m <= tasks_size (fst (admission_sweep now m)) ->
  let s := add caller value (-1) expiration avail now m in
  res s = Thrown TooManyPendingTasks
  /\ tasks_ (st s)
     = (if Guard.holds (Guard.ctor (-1) avail)
        then tasks_ (fst (admission_sweep now m))
        else tasks_ m)
  /\ tasks_size (st s) <= tasks_size m.
Proof.
  intros Hst Hpos Hfull. cbv zeta. unfold tasks_size.
  pose proof (at_cap_after_sweep now m Hpos Hfull) as Hcap.
  assert (Hlen : (length (tasks_ (fst (admission_sweep now m)))
                  <= length (tasks_ m))%nat).
  { unfold admission_sweep. destruct (at_cap m); [| simpl; lia].
    unfold removeExpired.
    generalize (expiredCount_ m). generalize (expireCallback_ m).
    induction (tasks_ m) as [|t rest IH]; intros cb c; [simpl; lia |].
    cbn [removeExpired_loop]. destruct (Task.expired now t).
    - simpl. lia.
    - specialize (IH cb c).
      destruct (removeExpired_loop true cb now rest c) as [[keep c'] es].
      simpl in *. lia. }
  unfold add. destruct (Guard.ctor (-1) avail) eqn:Hg.
  - unfold add_locked. rewrite Hst. cbn [STATE_eqb negb Guard.holds].
    destruct (admission_sweep now m) as [m1 es] eqn:Hsw. cbn [fst] in *.
    rewrite Hcap. rewrite andb_false_r. simpl.
    split; [reflexivity |]. split; [reflexivity | lia].
  - simpl. split; [reflexivity |]. split; [reflexivity | lia].
  - unfold Guard.ctor in Hg. simpl in Hg. unfold Mutex.trylock in Hg.
    destruct avail as [d|]; [destruct (d <=? 0) |]; discriminate.
Qed.

Lemma add_fail_fast_witness :
  (state_ full_manager = STARTED
   /\ 0 < pendingTaskCountMax_ full_manager
   /\ pendingTaskCountMax_ full_manager
      <= tasks_size (fst (admission_sweep 10 full_manager)))
  /\ res (add 7%positive 9%nat (-1) 0 (Some 0) 10 full_manager)
     = Thrown TooManyPendingTasks
  /\ tasks_ (st (add 7%positive 9%nat (-1) 0 (Some 0) 10 full_manager))
     = (if Guard.holds (Guard.ctor (-1) (Some 0))
        then tasks_ (fst (admission_sweep 10 full_manager))
        else tasks_ full_manager)
  /\ tasks_size (st (add 7%positive 9%nat (-1) 0 (Some 0) 10 full_manager))
     <= tasks_size full_manager.
Proof.
  split; [repeat split; vm_compute; congruence |].
  apply (add_fail_fast 7%positive 9%nat 0 (Some 0) 10 full_manager);
    [reflexivity | reflexivity | vm_compute; congruence].
Defined.

(** C3. A call of [add] by a thread whose id is a key of [idMap_], on a
    STARTED manager whose queue is at its nonzero cap after the one-task
    admission sweep: whenever the guard's constructor returns, and for
    every timeout, the call throws the backlog exception; it does not wait
    on [maxMonitor_] (nor on anything else), and it appends no task. *)
Theorem add_from_worker_fails (caller : id_t) (t : Thread) (value : Runnable)
    (timeout expiration : Z) (avail : option Z) (now : time_point) (m : Impl) :
  idMap_ m !! caller = Some t ->
  state_ m = STARTED ->
  0 < pendingTaskCountMax_ m ->
  pendingTaskCountMax_ m <= tasks_size (fst (admission_sweep now m)) ->
  Guard.ctor timeout avail <> Mutex.Blocked ->
  let s := add caller value timeout expiration avail now m in
  res s = Thrown TooManyPendingTasks
  /\ (forall c ms k, res s <> Waiting c ms k)
  /\ tasks_ (st s)
     = (if Guard.holds (Guard.ctor timeout avail)
        then tasks_ (fst (admission_sweep now m))
        else tasks_ m).
Proof.
  intros Hid Hst Hpos Hfull Hg. cbv zeta.
  pose proof (at_cap_after_sweep now m Hpos Hfull) as Hcap.
  destruct (admission_sweep_frame now m) as (_ & _ & Hidm & _).
  unfold add. destruct (Guard.ctor timeout avail) eqn:Eg; [| | congruence].
  - unfold add_locked. rewrite Hst. cbn [STATE_eqb negb Guard.holds].
    destruct (admission_sweep now m) as [m1 es] eqn:Hsw. cbn [fst] in *.
    rewrite Hcap.
    assert (Hcs : canSleep caller m1 = false).
    { unfold canSleep, getCurrentThreadId. rewrite Hidm, Hid.
      apply bool_decide_eq_false. discriminate. }
    rewrite Hcs. simpl. repeat split. intros c ms k. discriminate.
  - simpl. repeat split. intros c ms k. discriminate.
Qed.

Lemma add_from_worker_fails_witness :
  (idMap_ full_manager !! 1%positive = Some 1%positive
   /\ state_ full_manager = STARTED
   /\ 0 < pendingTaskCountMax_ full_manager
   /\ pendingTaskCountMax_ full_manager
      <= tasks_size (fst (admission_sweep 10 full_manager))
   /\ Guard.ctor 0 (Some 3) <> Mutex.Blocked)
  /\ res (add 1%positive 9%nat 0 0 (Some 3) 10 full_manager)
     = Thrown TooManyPendingTasks
  /\ (forall c ms k,
        res (add 1%positive 9%nat 0 0 (Some 3) 10 full_manager) <> Waiting c ms k)
  /\ tasks_ (st (add 1%positive 9%nat 0 0 (Some 3) 10 full_manager))
     = (if Guard.holds (Guard.ctor 0 (Some 3))
        then tasks_ (fst (admission_sweep 10 full_manager))
        else tasks_ full_manager).
Proof.
  split.
  - split; [reflexivity |]. split; [reflexivity |]. split; [reflexivity |].
    split; [vm_compute; congruence | discriminate].
  - apply (add_from_worker_fails 1%positive 1%positive 9%nat 0 0 (Some 3) 10
             full_manager);
      [reflexivity | reflexivity | reflexivity | vm_compute; congruence
      | discriminate].
Defined.

(** ** The guard of add *)

(** C1, as the code has it.  For every call of [add]: with [timeout > 0]
    the guard uses [timedlock(timeout)], which waits at most [timeout]
    milliseconds, and a guard that does not hold the mutex makes [add]
    throw the backlog exception with the manager untouched; with
    [timeout == 0] the guard uses [lock()], which waits however long the
    mutex stays taken and never returns when it is never released; with
    [timeout < 0] the guard uses [trylock()], which does not wait at all,
    and a mutex that is taken makes [add] throw the backlog exception at
    once. *)
Theorem add_guard_by_timeout (caller : id_t) (value : Runnable)
    (timeout expiration : Z) (avail : option Z) (now : time_point) (m : Impl) :
  let g := Guard.ctor timeout avail in
  let s := add caller value timeout expiration avail now m in
  (0 < timeout ->
     g = Mutex.timedlock timeout avail
     /\ (exists w, Guard.waited g = Some w /\ w <= timeout)
     /\ (Guard.holds g = false -> s = throw TooManyPendingTasks m []))
  /\ (timeout = 0 ->
        g = Mutex.lock avail
        /\ (forall d, avail = Some d -> g = Mutex.Locked d)
        /\ (avail = None -> g = Mutex.Blocked /\ res s = OnMutex))
  /\ (timeout < 0 ->
        g = Mutex.trylock avail
        /\ Guard.waited g = Some 0
        /\ (Guard.holds g = false -> s = throw TooManyPendingTasks m [])).
Proof.
  cbv zeta. unfold add, Guard.ctor. repeat split.
  - destruct (Z.eqb_spec timeout 0); [lia |].
    destruct (Z.ltb_spec timeout 0); [lia | reflexivity].
  - destruct (Z.eqb_spec timeout 0); [lia |].
    destruct (Z.ltb_spec timeout 0); [lia |].
    unfold Mutex.timedlock. destruct avail as [d|].
    + destruct (Z.leb_spec d timeout); simpl; eexists; split; eauto; lia.
    + simpl. eexists; split; eauto; lia.
  - destruct (Z.eqb_spec timeout 0); [lia |].
    destruct (Z.ltb_spec timeout 0); [lia |].
    unfold Mutex.timedlock. destruct avail as [d|].
    + destruct (d <=? timeout); simpl; [discriminate | reflexivity].
    + reflexivity.
  - subst timeout. reflexivity.
  - subst timeout. intros d ->. reflexivity.
  - subst. reflexivity.
  - subst. reflexivity.
  - destruct (Z.eqb_spec timeout 0); [lia |].
    destruct (Z.ltb_spec timeout 0); [reflexivity | lia].
  - destruct (Z.eqb_spec timeout 0); [lia |].
    destruct (Z.ltb_spec timeout 0); [| lia].
    unfold Mutex.trylock. destruct avail as [d|]; [destruct (d <=? 0) |];
      reflexivity.
  - destruct (Z.eqb_spec timeout 0); [lia |].
    destruct (Z.ltb_spec timeout 0); [| lia].
    unfold Mutex.trylock. destruct avail as [d|]; [destruct (d <=? 0) |];
      simpl; [discriminate | reflexivity | reflexivity].
Qed.

Lemma add_guard_by_timeout_witness :
  (0 < 20 ->
     Guard.ctor 20 (Some 50) = Mutex.timedlock 20 (Some 50)
     /\ (exists w, Guard.waited (Guard.ctor 20 (Some 50)) = Some w /\ w <= 20)
     /\ (Guard.holds (Guard.ctor 20 (Some 50)) = false ->
         add 7%positive 9%nat 20 0 (Some 50) 10 open_manager
         = throw TooManyPendingTasks open_manager []))
  /\ Guard.holds (Guard.ctor 20 (Some 50)) = false.
Proof.
  split; [| reflexivity].
  apply (add_guard_by_timeout 7%positive 9%nat 20 0 (Some 50) 10 open_manager).
Defined.

(** C1 as stated fails for a negative timeout: with the mutex taken for
    another 5 ms, [add(work, -1, 0)] does not wait for it.  The guard gives
    up after 0 ms and the call throws, although the queue has no cap; with
    [timeout = 0] the same call waits the 5 ms and queues the task. *)
Lemma add_negative_timeout_does_not_wait :
  Guard.ctor (-1) (Some 5) = Mutex.NotLocked 0
  /\ add 7%positive 9%nat (-1) 0 (Some 5) 10 open_manager
     = throw TooManyPendingTasks open_manager []
  /\ Guard.ctor 0 (Some 5) = Mutex.Locked 5
  /\ res (add 7%positive 9%nat 0 0 (Some 5) 10 open_manager) = Returned None.
Proof. repeat split. Qed.

(** ** start *)

(** C7, as the code has it.  [start()] called in state UNINITIALIZED
    without a thread factory throws and changes nothing; called in state
    STOPPED it returns normally, changes nothing and notifies nothing,
    with or without a factory; called in state UNINITIALIZED with a
    factory it returns normally with the state STARTED, every other field
    unchanged, after one [notifyAll] on [monitor_]. *)
Theorem start_by_state (m : Impl) :
  (state_ m = UNINITIALIZED -> threadFactory_ m = None ->
     start m = throw InvalidArgument m [])
  /\ (state_ m = STOPPED -> start m = ret m [])
  /\ (state_ m = UNINITIALIZED ->
      forall f, threadFactory_ m = Some f ->
        start m = ret (set_state STARTED m) [Assign STARTED; NotifyAll monitor_]).
Proof.
  unfold start. repeat split.
  - intros -> ->. reflexivity.
  - intros ->. reflexivity.
  - intros -> f ->. reflexivity.
Qed.

Lemma start_by_state_witness :
  start Impl_new = throw InvalidArgument Impl_new []
  /\ start (set_state STOPPED Impl_new) = ret (set_state STOPPED Impl_new) []
  /\ start (set_threadFactory joinable Impl_new)
     = ret (set_state STARTED (set_threadFactory joinable Impl_new))
           [Assign STARTED; NotifyAll monitor_].
Proof.
  split; [| split].
  - apply (proj1 (start_by_state Impl_new)); reflexivity.
  - apply (proj1 (proj2 (start_by_state (set_state STOPPED Impl_new)))).
    reflexivity.
  - apply (proj2 (proj2 (start_by_state (set_threadFactory joinable Impl_new)))
             eq_refl (mkThreadFactory false)).
    reflexivity.
Defined.

(** C7 as stated fails on a manager that was stopped before any factory
    was set, which [stop()] on a new manager produces: there [start()]
    returns normally although no thread factory has been set. *)
Lemma start_on_STOPPED_without_factory :
  execs [Do C_stop 0] World_new = Some (mkWorld (set_state STOPPED Impl_new) [])
  /\ threadFactory_ (set_state STOPPED Impl_new) = None
  /\ start (set_state STOPPED Impl_new) = ret (set_state STOPPED Impl_new) [].
Proof. repeat split. Qed.

(** ** Expired tasks and expiredCount_ *)

(** C4 fails on the worker's side.  After [expiry_trace] the queue holds one
    task with deadline 5 and no expire callback is set.  The worker woken
    at instant 20 takes the task, finds it TIMEDOUT, drops it without
    running it and goes back to sleep: [expiredCount_] is unchanged.  The
    sweep of [removeExpiredTasks] at the same instant counts the task. *)
Lemma worker_drop_not_counted :
  exists w s w',
    execs expiry_trace World_new = Some w
    /\ tasks_ (mgr w) = [Task.mk 42%nat Task.WAITING (Some 5)]
    /\ expireCallback_ (mgr w) = false
    /\ exec (Wake 0 false 20) w = Some (s, w')
    /\ evs s = [] /\ res s = Waiting monitor_ 0 (K_idle 1%positive)
    /\ tasks_ (mgr w') = []
    /\ expiredCount_ (mgr w') = expiredCount_ (mgr w)
    /\ expiredCount_ (st (removeExpiredTasks 20 (mgr w)))
       = expiredCount_ (mgr w) + 1.
Proof.
  do 3 eexists. split; [vm_compute; reflexivity |].
  split; [reflexivity |]. split; [reflexivity |].
  split; [vm_compute; reflexivity |]. repeat split.
Qed.

(** ** idleCount_ and workerCount_ *)

(** C8 fails.  After [race_trace] all threads are outside the mutex, one
    worker sleeps on [monitor_], and [workerCount_] is 0 while [idleCount_]
    is 1: the thread that entered [run] with
    [workerCount_ >= workerMaxCount_] did not count itself in, yet counted
    itself out.  [totalTaskCount] then wraps around. *)
Lemma idle_exceeds_workers :
  exists w,
    execs race_trace World_new = Some w
    /\ parked w = [K_addWorker; K_removeWorkers false; K_idle 2%positive]
    /\ workerCount_ (mgr w) = 0
    /\ idleCount_ (mgr w) = 1
    /\ totalTaskCount (mgr w) = size_t_modulus - 1.
Proof.
  eexists. split; [vm_compute; reflexivity |]. repeat split.
Qed.

(** ** The values of state_ *)

Lemma assigned_app a b : assigned (a ++ b) = assigned a ++ assigned b.
Proof. unfold assigned. apply omap_app. Qed.

Lemma assigned_map (A : Type) (f : A -> Event) (l : list A) :
  (forall x s, f x <> Assign s) -> assigned (map f l) = [].
Proof.
  intros Hf. induction l as [|x l IH]; [reflexivity |].
  cbn. specialize (Hf x). destruct (f x); try exact IH.
  exfalso. eapply Hf. reflexivity.
Qed.

Lemma assigned_repeat_Notify c n : assigned (repeat (Notify c) n) = [].
Proof. induction n; [reflexivity | exact IHn]. Qed.

Lemma started_only_run es k : In k (started es) -> exists t, k = K_run t.
Proof.
  induction es as [|e es IH]; [intros [] |].
  unfold started in *. cbn. destruct e; cbn; auto.
  intros [<- | H]; eauto.
Qed.

Lemma quiet_ret m m' es :
  state_ m' = state_ m -> assigned es = [] -> quiet m (ret m' es).
Proof.
  intros H1 H2. split; [exact H1 |]. split; [exact H2 |]. intros k [].
Qed.

Lemma quiet_throw m e : quiet m (throw e m []).
Proof. split; [reflexivity |]. split; [reflexivity |]. intros k []. Qed.

Lemma quiet_after m es s : assigned es = [] -> quiet m s -> quiet m (after es s).
Proof.
  intros He (H1 & H2 & H3). split; [exact H1 |]. split; [| exact H3].
  cbn. rewrite assigned_app, He, H2. reflexivity.
Qed.

Lemma quiet_from m m1 s : state_ m1 = state_ m -> quiet m1 s -> quiet m s.
Proof.
  intros E (H1 & H2 & H3). split; [congruence |]. split; [exact H2 | exact H3].
Qed.

Lemma quiet_parked m m' es r k :
  leftover (mkSeg m' es r) = [k] ->
  state_ m' = state_ m -> assigned es = [] ->
  k <> K_removeWorkers true -> k <> K_start -> quiet m (mkSeg m' es r).
Proof.
  intros Hl Hs He H1 H2. split; [exact Hs |]. split; [exact He |].
  intros k' Hk. rewrite Hl in Hk. destruct Hk as [<- | []]. split; assumption.
Qed.

Lemma quiet_waiting m c ms k :
  k <> K_removeWorkers true -> k <> K_start -> quiet m (mkSeg m [] (Waiting c ms k)).
Proof. intros H1 H2. now apply (quiet_parked m m [] _ k). Qed.

Lemma quiet_stuck m m' es r :
  leftover (mkSeg m' es r) = [] ->
  state_ m' = state_ m -> assigned es = [] -> quiet m (mkSeg m' es r).
Proof.
  intros Hl Hs He. split; [exact Hs |]. split; [exact He |].
  intros k Hk. rewrite Hl in Hk. destruct Hk.
Qed.

Lemma removeExpired_loop_quiet justOne cb now : forall it count,
  assigned (snd (removeExpired_loop justOne cb now it count)) = [].
Proof.
  induction it as [|t rest IH]; intros count; [reflexivity |].
  cbn [removeExpired_loop]. destruct (Task.expired now t).
  - destruct justOne.
    + destruct cb; reflexivity.
    + specialize (IH (wrap (count + 1))).
      destruct (removeExpired_loop false cb now rest (wrap (count + 1)))
        as [[keep c'] es].
      cbn [snd] in *. rewrite assigned_app, IH. destruct cb; reflexivity.
  - specialize (IH count).
    destruct (removeExpired_loop justOne cb now rest count) as [[keep c'] es].
    exact IH.
Qed.

Lemma removeExpired_quiet justOne now m :
  state_ (fst (removeExpired justOne now m)) = state_ m
  /\ assigned (snd (removeExpired justOne now m)) = [].
Proof.
  unfold removeExpired.
  pose proof (removeExpired_loop_quiet justOne (expireCallback_ m) now
                (tasks_ m) (expiredCount_ m)) as H.
  destruct (removeExpired_loop _ _ _ _ _) as [[keep c'] es]. cbn in *. auto.
Qed.

Lemma add_wait_quiet caller value timeout expiration now m :
  quiet m (add_wait caller value timeout expiration now m).
Proof.
  unfold add_wait, add_push. destruct (at_cap m).
  - apply quiet_waiting; discriminate.
  - apply quiet_ret; [reflexivity |]. destruct (0 <? idleCount_ m); reflexivity.
Qed.

Lemma add_quiet caller value timeout expiration avail now m :
  quiet m (add caller value timeout expiration avail now m).
Proof.
  unfold add. destruct (Guard.ctor timeout avail).
  - unfold add_locked.
    destruct (negb (STATE_eqb (state_ m) STARTED)); [apply quiet_throw |].
    assert (Hsw : state_ (fst (admission_sweep now m)) = state_ m
                  /\ assigned (snd (admission_sweep now m)) = []).
    { unfold admission_sweep. destruct (at_cap m).
      - apply removeExpired_quiet.
      - split; reflexivity. }
    destruct (admission_sweep now m) as [m1 es]. cbn in Hsw.
    destruct Hsw as [Hs He].
    destruct (at_cap m1).
    + destruct (canSleep caller m1 && (0 <=? timeout)).
      * apply quiet_after; [exact He |].
        apply (quiet_from m m1); [exact Hs | apply add_wait_quiet].
      * apply quiet_stuck; [reflexivity | exact Hs | exact He].
    + apply quiet_after; [exact He |]. apply (quiet_from m m1); [exact Hs |].
      unfold add_push. apply quiet_ret; [reflexivity |].
      destruct (0 <? idleCount_ m1); reflexivity.
  - apply quiet_throw.
  - apply quiet_stuck; reflexivity.
Qed.

Lemma drainDeadWorkers_quiet m : quiet m (drainDeadWorkers m).
Proof.
  unfold drainDeadWorkers.
  destruct (elements (deadWorkers_ m)) as [|w dead].
  - apply quiet_ret; reflexivity.
  - destruct (threadFactory_ m) as [f|].
    + apply quiet_ret; [reflexivity |]. destruct (isDetached f); [reflexivity |].
      apply (assigned_map _ Join). discriminate.
    + apply quiet_stuck; reflexivity.
Qed.

Lemma removeWorkers_wait_quiet m : quiet m (removeWorkers_wait m).
Proof.
  unfold removeWorkers_wait.
  destruct (negb (workerCount_ m =? workerMaxCount_ m)).
  - apply quiet_waiting; discriminate.
  - apply drainDeadWorkers_quiet.
Qed.

Lemma removeWorkersUnderLock_quiet value m :
  quiet m (removeWorkersUnderLock value m).
Proof.
  unfold removeWorkersUnderLock.
  destruct (workerMaxCount_ m <? value); [apply quiet_throw |].
  apply quiet_after.
  - unfold wake_sleepers. destruct (value <? _); [| reflexivity].
    apply assigned_repeat_Notify.
  - eapply quiet_from; [| apply removeWorkers_wait_quiet]. reflexivity.
Qed.

Lemma addWorker_wait_quiet m : quiet m (addWorker_wait m).
Proof.
  unfold addWorker_wait.
  destruct (negb (workerCount_ m =? workerMaxCount_ m)).
  - apply quiet_waiting; discriminate.
  - apply quiet_ret; reflexivity.
Qed.

Lemma addWorker_quiet newThreads m : quiet m (addWorker newThreads m).
Proof.
  unfold addWorker.
  assert (Hgo : forall m1, state_ m1 = state_ m ->
            quiet m (after (map StartThread newThreads) (addWorker_wait m1))).
  { intros m1 E. apply quiet_after.
    - apply (assigned_map _ StartThread). discriminate.
    - eapply quiet_from; [exact E | apply addWorker_wait_quiet]. }
  destruct newThreads as [|t ts].
  - apply Hgo. reflexivity.
  - destruct (threadFactory_ m).
    + apply Hgo. reflexivity.
    + apply quiet_stuck; reflexivity.
Qed.

Lemma Worker_leave_quiet self m : quiet m (Worker.leave self m).
Proof.
  unfold Worker.leave. apply quiet_ret; [reflexivity |].
  match goal with |- context [if ?b then _ else _] => destruct b end;
    reflexivity.
Qed.

Lemma Worker_loop_quiet self now : forall queue m,
  quiet m (Worker.loop self now queue m).
Proof.
  induction queue as [|front rest IH]; intros m; cbn [Worker.loop].
  - destruct (Worker.isActive (set_tasks [] m)).
    + eapply quiet_parked; [reflexivity | reflexivity | reflexivity | |];
        discriminate.
    + eapply quiet_from; [| apply Worker_leave_quiet]. reflexivity.
  - destruct (Worker.isActive (set_tasks (front :: rest) m)).
    + set (es := if _ : bool then [Notify maxMonitor_] else []).
      assert (Hes : assigned es = []) by (subst es; destruct (_ && _); reflexivity).
      destruct (Task.STATE_eqb _ _).
      * eapply quiet_parked; [reflexivity | reflexivity | exact Hes | |];
          discriminate.
      * cbn [expireCallback_ set_tasks]. destruct (expireCallback_ m).
        -- apply quiet_after; [rewrite assigned_app, Hes; reflexivity |].
           eapply quiet_from; [| apply IH]. reflexivity.
        -- apply quiet_after; [exact Hes |].
           eapply quiet_from; [| apply IH]. reflexivity.
    + eapply quiet_from; [| apply Worker_leave_quiet]. reflexivity.
Qed.

Lemma Worker_run_quiet self now m : quiet m (Worker.run self now m).
Proof.
  unfold Worker.run. destruct (workerCount_ m <? workerMaxCount_ m).
  - apply quiet_after.
    + match goal with |- context [if ?b then _ else _] => destruct b end;
        reflexivity.
    + eapply quiet_from; [| apply Worker_loop_quiet]. reflexivity.
  - apply Worker_leave_quiet.
Qed.

Lemma call_quiet c now m :
  c <> C_start -> c <> C_stop -> quiet m (call c now m).
Proof.
  intros Hs Hp. destruct c; try congruence; cbn [call].
  - unfold threadFactory. destruct (threadFactory_ m) as [cur|].
    + destruct value as [v|]; [| apply quiet_stuck; reflexivity].
      destruct (negb _); [apply quiet_throw | apply quiet_ret; reflexivity].
    + destruct value; apply quiet_ret; reflexivity.
  - apply quiet_ret; reflexivity.
  - apply quiet_ret; reflexivity.
  - apply addWorker_quiet.
  - apply removeWorkersUnderLock_quiet.
  - apply add_quiet.
  - unfold remove. destruct (negb _); [apply quiet_throw |].
    apply quiet_ret; reflexivity.
  - unfold removeNextPending. destruct (negb _); [apply quiet_throw |].
    destruct (tasks_ m); apply quiet_stuck; reflexivity.
  - unfold removeExpiredTasks.
    pose proof (removeExpired_quiet false now m) as H.
    destruct (removeExpired false now m) as [m' es]. cbn in H.
    apply quiet_ret; tauto.
Qed.

Lemma resume_quiet k timedout now m :
  k <> K_removeWorkers true -> k <> K_start -> quiet m (resume k timedout now m).
Proof.
  intros H1 H2. destruct k; try congruence; cbn [resume].
  - apply addWorker_wait_quiet.
  - destruct stopping; [congruence |]. apply removeWorkers_wait_quiet.
  - unfold add_resume. destruct (Monitor.wait timeout timedout).
    + apply quiet_throw.
    + apply add_wait_quiet.
  - apply Worker_run_quiet.
  - unfold Worker.wake. eapply quiet_from; [| apply Worker_loop_quiet].
    reflexivity.
  - apply Worker_loop_quiet.
Qed.

Lemma quiet_step_ok m s : live (state_ m) = true -> quiet m s -> step_ok m s.
Proof.
  intros Hl (Hs & He & Hk). unfold step_ok, visited. rewrite He, Hs.
  split; [reflexivity |]. split; [reflexivity |].
  split; [| split; [auto | split; [exact Hl |]]].
  - intros c ms E. destruct (Hk K_start) as [_ F]; [| congruence].
    unfold leftover. rewrite E. left. reflexivity.
  - intros Hin. destruct (Hk _ Hin) as [F _]. congruence.
Qed.

Lemma start_step_ok m : live (state_ m) = true -> step_ok m (start m).
Proof.
  intros Hl. unfold start, start_wait.
  destruct (state_ m) eqn:E; try discriminate; cbn [STATE_eqb].
  - destruct (threadFactory_ m).
    + unfold step_ok. cbn. rewrite E. repeat split; try discriminate.
      intros [].
    + apply quiet_step_ok; [now rewrite E | apply quiet_throw].
  - apply quiet_step_ok; [now rewrite E | apply quiet_ret; reflexivity].
  - apply quiet_step_ok; [now rewrite E | apply quiet_ret; reflexivity].
  - apply quiet_step_ok; [now rewrite E | apply quiet_ret; reflexivity].
Qed.

(** [then_stopped] either stores STOPPED and returns, or stores nothing. *)
Lemma then_stopped_cases m s0 :
  quiet m s0 ->
  (assigned (evs (then_stopped s0)) = [STOPPED]
   /\ state_ (st (then_stopped s0)) = STOPPED
   /\ res (then_stopped s0) = Returned None)
  \/ (assigned (evs (then_stopped s0)) = []
      /\ state_ (st (then_stopped s0)) = state_ m
      /\ forall c ms, res (then_stopped s0) <> Waiting c ms K_start).
Proof.
  intros (Hs & He & Hk). unfold then_stopped.
  destruct (res s0) as [r|e|c ms k|k| |] eqn:Er.
  - left. cbn. rewrite assigned_app, He. repeat split.
  - right. rewrite Er. repeat split; try assumption. discriminate.
  - right. destruct k; cbn; try rewrite Er; repeat split; try assumption;
      try discriminate.
    intros c' ms' F. destruct (Hk K_start) as [_ G]; [| congruence].
    unfold leftover. rewrite Er. left. reflexivity.
  - right. rewrite Er. repeat split; try assumption. discriminate.
  - right. rewrite Er. repeat split; try assumption. discriminate.
  - right. rewrite Er. repeat split; try assumption. discriminate.
Qed.

Lemma stop_step_ok m : live (state_ m) = true -> step_ok m (stop m).
Proof.
  intros Hl. unfold stop.
  set (s0 := removeWorkersUnderLock (workerCount_ m) (set_state JOINING m)).
  assert (Hq : quiet (set_state JOINING m) s0)
    by apply removeWorkersUnderLock_quiet.
  assert (Hgo : state_ m = UNINITIALIZED \/ state_ m = STARTED ->
                step_ok m (after [Assign JOINING] (then_stopped s0))).
  { intros Hst. unfold step_ok, visited. cbn [after evs st res leftover app].
    change (assigned (Assign JOINING :: evs (then_stopped s0)))
      with (JOINING :: assigned (evs (then_stopped s0))).
    destruct (then_stopped_cases _ _ Hq) as [(Ha & Hs & Hr) | (Ha & Hs & Hr)];
      rewrite Ha, Hs; cbn [set_state state_].
    - rewrite Hr. destruct Hst as [E | E]; rewrite E; cbn;
        repeat split; try discriminate; auto.
    - destruct Hst as [E | E]; rewrite E; cbn;
        repeat split; try discriminate; auto. }
  destruct (state_ m) eqn:E; try discriminate; cbn [STATE_eqb negb andb].
  - apply Hgo. auto.
  - apply Hgo. auto.
  - unfold step_ok. cbn. rewrite E. repeat split; try discriminate; auto.
  - unfold step_ok. cbn. rewrite E. repeat split; try discriminate; auto.
Qed.

Lemma removeWorkers_resume_step_ok m :
  state_ m = JOINING \/ state_ m = STOPPED ->
  step_ok m (removeWorkers_resume true m).
Proof.
  intros Hst. unfold removeWorkers_resume.
  destruct (then_stopped_cases _ _ (removeWorkers_wait_quiet m))
    as [(Ha & Hs & Hr) | (Ha & Hs & Hr)];
    unfold step_ok, visited; rewrite Ha, Hs; try rewrite Hr;
    destruct Hst as [E | E]; rewrite E; cbn; repeat split;
    try discriminate; auto; try (intros c ms; apply Hr).
Qed.

Lemma In_delete (A : Type) (x : A) : forall (l : list A) (i : nat),
  In x (delete i l) -> In x l.
Proof.
  induction l as [|y l IH]; intros [|i]; cbn; auto.
  intros [-> | H]; eauto.
Qed.

(** Every segment of the interleaving, from a sound world. *)
Lemma exec_sound a w s w' :
  stopping_sound w -> exec a w = Some (s, w') ->
  step_ok (mgr w) s /\ mgr w' = st s /\ stopping_sound w'.
Proof.
  intros [Hl Hj] He.
  assert (Hgo : forall old,
            (forall k, In k old -> In k (parked w)) ->
            step_ok (mgr w) s ->
            quiet (mgr w) s
            \/ (state_ (st s) = JOINING \/ state_ (st s) = STOPPED) ->
            stopping_sound (mkWorld (st s) (old ++ leftover s ++ started (evs s)))).
  { intros old Hsub Hok Hcase. destruct Hok as (_ & _ & _ & _ & Hl' & Hk').
    split; [exact Hl' |]. cbn [mgr parked]. intros Hin.
    apply in_app_or in Hin as [Hin | Hin].
    - destruct Hcase as [(Hs & _) | Hs]; [| exact Hs].
      rewrite Hs. apply Hj, Hsub, Hin.
    - apply in_app_or in Hin as [Hin | Hin]; [apply Hk', Hin |].
      apply started_only_run in Hin as [t F]. discriminate. }
  destruct a as [c now | i timedout now]; cbn [exec] in He.
  - destruct (settles (call c now (mgr w))); [| discriminate].
    injection He as <- <-. cbn [mgr].
    assert (Hok : step_ok (mgr w) (call c now (mgr w))
                  /\ (quiet (mgr w) (call c now (mgr w))
                      \/ (state_ (st (call c now (mgr w))) = JOINING
                          \/ state_ (st (call c now (mgr w))) = STOPPED)
                      \/ ~ In (K_removeWorkers true) (parked w))).
    { destruct c;
        try (split; [apply quiet_step_ok; [exact Hl |] | left];
             apply call_quiet; discriminate).
      - split; [apply start_step_ok, Hl |]. cbn [call].
        destruct (state_ (mgr w)) eqn:E; try discriminate.
        + right. right. intros Hin. destruct (Hj Hin); congruence.
        + left. unfold start, start_wait. rewrite E. apply quiet_ret; reflexivity.
        + left. unfold start, start_wait. rewrite E. apply quiet_ret; reflexivity.
        + left. unfold start, start_wait. rewrite E. apply quiet_ret; reflexivity.
      - pose proof (stop_step_ok _ Hl) as Hok. split; [exact Hok |]. cbn [call].
        right. left. unfold stop.
        set (s0 := removeWorkersUnderLock _ _).
        assert (Hq : quiet (set_state JOINING (mgr w)) s0)
          by apply removeWorkersUnderLock_quiet.
        destruct (negb _ && negb _ && negb _).
        + destruct (then_stopped_cases _ _ Hq) as [(_ & Hs & _) | (_ & Hs & _)];
            cbn [after st]; rewrite Hs; auto.
        + right. reflexivity. }
    destruct Hok as [Hok Hcase]. split; [exact Hok |]. split; [reflexivity |].
    destruct Hcase as [Hq | [Hs | Hno]].
    + apply (Hgo (parked w)); auto.
    + apply (Hgo (parked w)); auto.
    + destruct Hok as (_ & _ & _ & _ & Hl' & Hk').
      split; [exact Hl' |]. cbn [mgr parked]. intros Hin.
      apply in_app_or in Hin as [Hin | Hin]; [contradiction |].
      apply in_app_or in Hin as [Hin | Hin]; [apply Hk', Hin |].
      apply started_only_run in Hin as [t F]. discriminate.
  - destruct (parked w !! i) as [k|] eqn:Ek; [| discriminate].
    destruct (settles (resume k timedout now (mgr w))); [| discriminate].
    injection He as <- <-. cbn [mgr].
    assert (Hin : In k (parked w)).
    { apply list_elem_of_In. eapply list_elem_of_lookup_2. exact Ek. }
    assert (Hok : step_ok (mgr w) (resume k timedout now (mgr w))
                  /\ (quiet (mgr w) (resume k timedout now (mgr w))
                      \/ (state_ (st (resume k timedout now (mgr w))) = JOINING
                          \/ state_ (st (resume k timedout now (mgr w))) = STOPPED))).
    { destruct k as [| |[|]| | | |];
        try (split; [apply quiet_step_ok; [exact Hl |] | left];
             apply resume_quiet; discriminate).
      - assert (Hq : quiet (mgr w) (resume K_start timedout now (mgr w))).
        { cbn [resume]. unfold start_wait.
          destruct (state_ (mgr w)) eqn:E; try discriminate; cbn [STATE_eqb];
            apply quiet_ret; reflexivity. }
        split; [apply quiet_step_ok; assumption | left; exact Hq].
      - pose proof (removeWorkers_resume_step_ok _ (Hj Hin)) as Hok.
        split; [exact Hok |]. right. cbn [resume].
        unfold removeWorkers_resume.
        destruct (then_stopped_cases _ _ (removeWorkers_wait_quiet (mgr w)))
          as [(_ & Hs & _) | (_ & Hs & _)]; rewrite Hs; auto. }
    destruct Hok as [Hok Hcase]. split; [exact Hok |]. split; [reflexivity |].
    apply Hgo; auto. intros k' Hk'. eapply In_delete. exact Hk'.
Qed.

Lemma execs_sound l : forall w w',
  stopping_sound w -> execs l w = Some w' -> stopping_sound w'.
Proof.
  induction l as [|a l IH]; intros w w' Hw He; cbn [execs] in He.
  - injection He as <-. exact Hw.
  - destruct (exec a w) as [[s w1]|] eqn:Ea; [| discriminate].
    apply (IH w1 w'); [| exact He].
    apply (exec_sound a w s w1 Hw Ea).
Qed.

Lemma reachable_sound w : reachable w -> stopping_sound w.
Proof.
  intros [l Hl]. apply (execs_sound l World_new w); [| exact Hl].
  split; [reflexivity | intros []].
Qed.

(** C9, as the code has it.  In every reachable world [state_] is
    UNINITIALIZED, STARTED, JOINING or STOPPED, never STARTING or STOPPING.
    Every segment run from there stores into [state_] only along
    UNINITIALIZED -> STARTED -> JOINING -> STOPPED or along the shortcut
    UNINITIALIZED -> JOINING that [stop()] takes before any [start()]
    (storing the value already there counts as no move); the stores it
    makes end in the value the manager then has; it never waits in the
    [while (state_ == STARTING)] loop of [start]; and once the state is
    STOPPED it stays STOPPED. *)
Theorem state_machine_traversed (w : World) :
  reachable w ->
  live (state_ (mgr w)) = true
  /\ forall a s w', exec a w = Some (s, w') ->
       chain (visited (state_ (mgr w)) (evs s)) = true
       /\ List.last (visited (state_ (mgr w)) (evs s)) (state_ (mgr w))
          = state_ (mgr w')
       /\ (forall c ms, res s <> Waiting c ms K_start)
       /\ (state_ (mgr w) = STOPPED -> state_ (mgr w') = STOPPED)
       /\ live (state_ (mgr w')) = true.
Proof.
  intros Hr. pose proof (reachable_sound w Hr) as Hw.
  split; [apply Hw |]. intros a s w' He.
  destruct (exec_sound a w s w' Hw He) as ((H1 & H2 & H3 & H4 & H5 & _) & Hm & _).
  rewrite Hm. auto.
Qed.

Lemma state_machine_traversed_witness :
  reachable World_new
  /\ live (state_ (mgr World_new)) = true
  /\ forall a s w', exec a World_new = Some (s, w') ->
       chain (visited (state_ (mgr World_new)) (evs s)) = true
       /\ List.last (visited (state_ (mgr World_new)) (evs s))
                    (state_ (mgr World_new))
          = state_ (mgr w')
       /\ (forall c ms, res s <> Waiting c ms K_start)
       /\ (state_ (mgr World_new) = STOPPED -> state_ (mgr w') = STOPPED)
       /\ live (state_ (mgr w')) = true.
Proof.
  assert (Hr : reachable World_new) by (exists []; reflexivity).
  split; [exact Hr |]. apply (state_machine_traversed World_new Hr).
Defined.

(** C9 as stated fails on its state machine: [stop()] on a manager that
    was never started stores JOINING over UNINITIALIZED, so STARTED is not
    on the way.  After [unstarted_trace] a worker sleeps and the state is
    UNINITIALIZED; [stop()] then waits for the worker with the state
    JOINING. *)
Lemma stop_before_start_skips_STARTED :
  exists w s w',
    execs unstarted_trace World_new = Some w
    /\ state_ (mgr w) = UNINITIALIZED
    /\ exec (Do C_stop 0) w = Some (s, w')
    /\ visited (state_ (mgr w)) (evs s) = [UNINITIALIZED; JOINING]
    /\ forward UNINITIALIZED JOINING = false
    /\ res s = Waiting workerMonitor_ 0 (K_removeWorkers true)
    /\ state_ (mgr w') = JOINING.
Proof.
  do 3 eexists. split; [vm_compute; reflexivity |].
  split; [reflexivity |]. split; [vm_compute; reflexivity |]. repeat split.
Qed.

(** * Further properties of the code *)

Lemma set_tasks_same m : set_tasks (tasks_ m) m = m.
Proof. destruct m; reflexivity. Qed.

Lemma set_expiredCount_same m : set_expiredCount (expiredCount_ m) m = m.
Proof. destruct m; reflexivity. Qed.

(** ** remove and removeNextPending *)

Lemma erase_first_split task : forall before x after,
  Task.getRunnable x = task ->
  Forall (fun t => Task.getRunnable t <> task) before ->
  erase_first task (before ++ x :: after) = before ++ after.
Proof.
  induction before as [|y before IH]; intros x after Hx Hb; cbn.
  - rewrite Hx, Nat.eqb_refl. reflexivity.
  - inversion Hb as [|? ? Hy Hb']; subst.
    destruct (Nat.eqb_spec (Task.getRunnable y) (Task.getRunnable x));
      [contradiction |].
    rewrite IH; auto.
Qed.

Lemma erase_first_none task : forall queue,
  Forall (fun t => Task.getRunnable t <> task) queue ->
  erase_first task queue = queue.
Proof.
  induction queue as [|y queue IH]; intros Hq; cbn; [reflexivity |].
  inversion Hq as [|? ? Hy Hq']; subst.
  destruct (Nat.eqb_spec (Task.getRunnable y) task); [contradiction |].
  rewrite IH; auto.
Qed.

(** X1. On a STARTED manager [remove(task)] takes out the first queued
    task that wraps [task] and nothing else: the tasks before and after it
    keep their order, later tasks wrapping the same runnable stay, and no
    other field changes.  When no queued task wraps [task] the call
    returns normally and the manager is unchanged. *)
Theorem remove_erases_first (task : Runnable) (m : Impl) :
  state_ m = STARTED ->
  (forall before x after,
     tasks_ m = before ++ x :: after ->
     Task.getRunnable x = task ->
     Forall (fun t => Task.getRunnable t <> task) before ->
     remove task m = ret (set_tasks (before ++ after) m) [])
  /\ (Forall (fun t => Task.getRunnable t <> task) (tasks_ m) ->
      remove task m = ret m []).
Proof.
  intros Hst. unfold remove. rewrite Hst. cbn [STATE_eqb negb]. split.
  - intros before x after Hq Hx Hb. rewrite Hq.
    rewrite erase_first_split by assumption. reflexivity.
  - intros Hq. rewrite erase_first_none by assumption.
    rewrite set_tasks_same. reflexivity.
Qed.

Lemma remove_erases_first_witness :
  state_ full_manager = STARTED
  /\ remove 2%nat
       (set_tasks (tasks_ full_manager ++ [Task.mk 2%nat Task.WAITING None])
                  full_manager)
     = ret (set_tasks [Task.mk 1%nat Task.WAITING None;
                       Task.mk 2%nat Task.WAITING None] full_manager) []
  /\ remove 7%nat full_manager = ret full_manager [].
Proof.
  split; [reflexivity |]. split.
  - apply (proj1 (remove_erases_first 2%nat
                    (set_tasks (tasks_ full_manager
                                ++ [Task.mk 2%nat Task.WAITING None])
                               full_manager) eq_refl)
             [Task.mk 1%nat Task.WAITING None]
             (Task.mk 2%nat Task.WAITING (Some 50))
             [Task.mk 2%nat Task.WAITING None]).
    + reflexivity.
    + reflexivity.
    + constructor; [discriminate | constructor].
  - apply (proj2 (remove_erases_first 7%nat full_manager eq_refl)).
    repeat constructor; discriminate.
Defined.

(** X2. In every state other than STARTED, [remove], [removeNextPending]
    and [add] (once its guard holds the mutex) throw the not-started
    exception and leave the manager as it was: no task is taken out or
    appended, no expired task is swept, nothing is notified, whatever the
    queue, the cap, the caller and the timeout. *)
Theorem not_started_rejects (m : Impl) :
  state_ m <> STARTED ->
  (forall task, remove task m = throw NotStarted m [])
  /\ removeNextPending m = throw NotStarted m []
  /\ (forall caller value timeout expiration avail now,
        Guard.holds (Guard.ctor timeout avail) = true ->
        add caller value timeout expiration avail now m
        = throw NotStarted m []).
Proof.
  intros Hst.
  assert (E : negb (STATE_eqb (state_ m) STARTED) = true).
  { destruct (STATE_eqb (state_ m) STARTED) eqn:E; [| reflexivity].
    apply STATE_eqb_eq in E. contradiction. }
  unfold remove, removeNextPending, add, add_locked. rewrite E.
  split; [reflexivity |]. split; [reflexivity |].
  intros caller value timeout expiration avail now Hg.
  destruct (Guard.ctor timeout avail); [reflexivity | discriminate | discriminate].
Qed.

Lemma not_started_rejects_witness :
  state_ (set_state JOINING full_manager) <> STARTED
  /\ (forall task,
        remove task (set_state JOINING full_manager)
        = throw NotStarted (set_state JOINING full_manager) [])
  /\ removeNextPending (set_state JOINING full_manager)
     = throw NotStarted (set_state JOINING full_manager) []
  /\ (forall caller value timeout expiration avail now,
        Guard.holds (Guard.ctor timeout avail) = true ->
        add caller value timeout expiration avail now
            (set_state JOINING full_manager)
        = throw NotStarted (set_state JOINING full_manager) []).
Proof.
  split; [discriminate |].
  apply (not_started_rejects (set_state JOINING full_manager)). discriminate.
Defined.

(** ** The guard on a free mutex *)

Lemma Guard_ctor_free timeout : Guard.ctor timeout (Some 0) = Mutex.Locked 0.
Proof.
  unfold Guard.ctor. destruct (Z.eqb_spec timeout 0); [reflexivity |].
  destruct (Z.ltb_spec timeout 0); [reflexivity |].
  unfold Mutex.timedlock. destruct (Z.leb_spec 0 timeout); [reflexivity | lia].
Qed.

(** ** The queue is first in, first out *)

Lemma add_uncapped caller value timeout expiration now m :
  pendingTaskCountMax_ m = 0 -> state_ m = STARTED ->
  st (add caller value timeout expiration (Some 0) now m)
  = set_tasks (tasks_ m ++ [Task.new value expiration now]) m.
Proof.
  intros Hcap Hst. unfold add, add_locked. rewrite Guard_ctor_free, Hst.
  cbn [STATE_eqb negb].
  assert (Hnc : at_cap m = false) by (unfold at_cap; rewrite Hcap; reflexivity).
  unfold admission_sweep. rewrite Hnc, Hnc. reflexivity.
Qed.

Lemma add_each_uncapped caller timeout expiration now : forall values m,
  pendingTaskCountMax_ m = 0 -> state_ m = STARTED ->
  add_each caller timeout expiration now values m
  = set_tasks (tasks_ m ++ map (fun v => Task.new v expiration now) values) m.
Proof.
  induction values as [|v values IH]; intros m Hcap Hst; cbn [add_each map].
  - rewrite app_nil_r, set_tasks_same. reflexivity.
  - rewrite add_uncapped by assumption. rewrite IH by assumption.
    cbn [set_tasks tasks_]. rewrite <- app_assoc. reflexivity.
Qed.

Lemma removeNextPending_each_all : forall queue m,
  state_ m = STARTED ->
  removeNextPending_each (length queue) (set_tasks queue m)
  = (map (fun t => Returned (Some (Task.getRunnable t))) queue, set_tasks [] m).
Proof.
  induction queue as [|t queue IH]; intros m Hst; cbn [length removeNextPending_each].
  - reflexivity.
  - unfold removeNextPending at 1 2. cbn [set_tasks state_ tasks_]. rewrite Hst.
    cbn [STATE_eqb negb st res].
    change (set_tasks queue (set_tasks (t :: queue) m)) with (set_tasks queue m).
    rewrite IH by assumption. reflexivity.
Qed.

(** X3. First in, first out.  On a STARTED manager without cap, after one
    client has added the runnables [values] in turn, as many calls of
    [removeNextPending] as there are queued tasks return the runnables of
    the tasks that were already queued, oldest first, and then [values] in
    the order they were added; the queue is then empty and one more call
    returns the empty handle. *)
Theorem fifo_round_trip (caller : id_t) (timeout expiration : Z)
    (now : time_point) (values : list Runnable) (m : Impl) :
  pendingTaskCountMax_ m = 0 ->
  state_ m = STARTED ->
  let m' := add_each caller timeout expiration now values m in
  removeNextPending_each (length (tasks_ m') ) m'
  = (map (fun t => Returned (Some (Task.getRunnable t))) (tasks_ m)
     ++ map (fun v => Returned (Some v)) values,
     set_tasks [] m)
  /\ removeNextPending (set_tasks [] m) = mkSeg (set_tasks [] m) [] (Returned None).
Proof.
  intros Hcap Hst. cbv zeta. rewrite add_each_uncapped by assumption. split.
  - cbn [tasks_ set_tasks]. rewrite removeNextPending_each_all by assumption.
    rewrite map_app, map_map. reflexivity.
  - unfold removeNextPending. cbn [set_tasks state_ tasks_]. rewrite Hst.
    reflexivity.
Qed.

Lemma fifo_round_trip_witness :
  (pendingTaskCountMax_ open_manager = 0 /\ state_ open_manager = STARTED)
  /\ removeNextPending_each
       (length (tasks_ (add_each 7%positive 0 0 10 [5%nat; 6%nat] open_manager)))
       (add_each 7%positive 0 0 10 [5%nat; 6%nat] open_manager)
     = (map (fun t => Returned (Some (Task.getRunnable t))) (tasks_ open_manager)
        ++ map (fun v => Returned (Some v)) [5%nat; 6%nat],
        set_tasks [] open_manager)
  /\ removeNextPending (set_tasks [] open_manager)
     = mkSeg (set_tasks [] open_manager) [] (Returned None).
Proof.
  split; [split; reflexivity |].
  apply (fifo_round_trip 7%positive 0 0 10 [5%nat; 6%nat] open_manager);
    reflexivity.
Defined.

(** ** add and the cap *)

Lemma tasks_size_push q x m :
  tasks_size (set_tasks (q ++ [x]) m) = Z.of_nat (length q) + 1.
Proof. unfold tasks_size. cbn. rewrite length_app. cbn. lia. Qed.

Lemma at_cap_false_below m :
  0 < pendingTaskCountMax_ m -> at_cap m = false ->
  tasks_size m < pendingTaskCountMax_ m.
Proof.
  unfold at_cap. intros Hpos H. apply andb_false_iff in H as [H | H].
  - apply Z.ltb_ge in H. lia.
  - apply Z.leb_gt in H. exact H.
Qed.

Lemma add_push_within value expiration now m :
  0 < pendingTaskCountMax_ m -> at_cap m = false ->
  tasks_size (st (add_push value expiration now m)) <= pendingTaskCountMax_ m
  /\ pendingTaskCountMax_ (st (add_push value expiration now m))
     = pendingTaskCountMax_ m.
Proof.
  intros Hpos Hc. pose proof (at_cap_false_below m Hpos Hc) as Hlt.
  unfold add_push. cbn [ret st]. rewrite tasks_size_push.
  unfold tasks_size in Hlt. split; [lia | reflexivity].
Qed.

Lemma add_wait_within caller value timeout expiration now m r :
  0 < pendingTaskCountMax_ m ->
  res (add_wait caller value timeout expiration now m) = Returned r ->
  tasks_size (st (add_wait caller value timeout expiration now m))
  <= pendingTaskCountMax_ m
  /\ pendingTaskCountMax_ (st (add_wait caller value timeout expiration now m))
     = pendingTaskCountMax_ m.
Proof.
  intros Hpos. unfold add_wait. destruct (at_cap m) eqn:Hc; [discriminate |].
  intros _. apply add_push_within; assumption.
Qed.

(** X4. [add] never fills a capped queue beyond its cap: whenever a call of
    [add], or a producer woken from its wait on [maxMonitor_], returns
    normally on a manager with [pendingTaskCountMax_ > 0], the queue it
    leaves holds at most [pendingTaskCountMax_] tasks. *)
Theorem add_respects_cap (caller : id_t) (value : Runnable)
    (timeout expiration : Z) (now : time_point) (m : Impl) :
  0 < pendingTaskCountMax_ m ->
  (forall avail r,
     res (add caller value timeout expiration avail now m) = Returned r ->
     tasks_size (st (add caller value timeout expiration avail now m))
     <= pendingTaskCountMax_ m)
  /\ (forall timedout r,
        res (add_resume caller value timeout expiration timedout now m)
        = Returned r ->
        tasks_size (st (add_resume caller value timeout expiration timedout now m))
        <= pendingTaskCountMax_ m).
Proof.
  intros Hpos. split.
  - intros avail r. unfold add.
    destruct (Guard.ctor timeout avail); [| discriminate | discriminate].
    unfold add_locked.
    destruct (negb (STATE_eqb (state_ m) STARTED)); [discriminate |].
    destruct (admission_sweep_frame now m) as (Hcap & _).
    destruct (admission_sweep now m) as [m1 es]. cbn [fst] in Hcap.
    rewrite <- Hcap in *.
    destruct (at_cap m1) eqn:Hc.
    + destruct (canSleep caller m1 && (0 <=? timeout)); [| discriminate].
      cbn [after res st]. intros Hr.
      apply (add_wait_within _ _ _ _ _ _ r Hpos Hr).
    + cbn [after res st]. intros _. apply add_push_within; assumption.
  - intros timedout r. unfold add_resume.
    destruct (Monitor.wait timeout timedout); [discriminate |].
    intros Hr. apply (add_wait_within _ _ _ _ _ _ r Hpos Hr).
Qed.

Lemma add_respects_cap_witness :
  0 < pendingTaskCountMax_ stale_manager
  /\ res (add 7%positive 9%nat 0 0 (Some 0) 60 stale_manager) = Returned None
  /\ tasks_size (st (add 7%positive 9%nat 0 0 (Some 0) 60 stale_manager))
     <= pendingTaskCountMax_ stale_manager.
Proof.
  split; [reflexivity |]. split; [reflexivity |].
  apply (proj1 (add_respects_cap 7%positive 9%nat 0 0 60 stale_manager eq_refl)
           (Some 0) None).
  reflexivity.
Defined.

(** ** The one-task sweep *)

Lemma removeExpired_loop_first cb now : forall before x after count,
  Forall (fun t => Task.expired now t = false) before ->
  Task.expired now x = true ->
  removeExpired_loop true cb now (before ++ x :: after) count
  = (before ++ after, wrap (count + 1),
     if cb then [Expire (Task.getRunnable x)] else []).
Proof.
  induction before as [|y before IH]; intros x after count Hb Hx; cbn.
  - rewrite Hx. reflexivity.
  - inversion Hb as [|? ? Hy Hb']; subst. rewrite Hy.
    rewrite IH by assumption. reflexivity.
Qed.

Lemma removeExpired_loop_nothing justOne cb now : forall queue count,
  Forall (fun t => Task.expired now t = false) queue ->
  removeExpired_loop justOne cb now queue count = (queue, count, []).
Proof.
  induction queue as [|y queue IH]; intros count Hq; cbn; [reflexivity |].
  inversion Hq as [|? ? Hy Hq']; subst. rewrite Hy.
  rewrite IH by assumption. reflexivity.
Qed.

Lemma removeExpired_first now m before x after :
  tasks_ m = before ++ x :: after ->
  Forall (fun t => Task.expired now t = false) before ->
  Task.expired now x = true ->
  removeExpired true now m
  = (set_expiredCount (wrap (expiredCount_ m + 1))
       (set_tasks (before ++ after) m),
     if expireCallback_ m then [Expire (Task.getRunnable x)] else []).
Proof.
  intros Hq Hb Hx. unfold removeExpired. rewrite Hq.
  rewrite removeExpired_loop_first by assumption. reflexivity.
Qed.

(** X5. [removeExpired(true)], the sweep [add] makes at the cap, takes out
    exactly one task, the first one in the queue whose deadline precedes
    [now]: the tasks before it and all tasks after it stay in order,
    expired or not; [expiredCount_] goes up by one and the callback, when
    set, is called once, with that task's runnable.  When no queued task
    has expired nothing changes and no callback is made. *)
Theorem removeExpired_takes_first (now : time_point) (m : Impl) :
  (forall before x after,
     tasks_ m = before ++ x :: after ->
     Forall (fun t => Task.expired now t = false) before ->
     Task.expired now x = true ->
     removeExpired true now m
     = (set_expiredCount (wrap (expiredCount_ m + 1))
          (set_tasks (before ++ after) m),
        if expireCallback_ m then [Expire (Task.getRunnable x)] else []))
  /\ (Forall (fun t => Task.expired now t = false) (tasks_ m) ->
      removeExpired true now m = (m, [])).
Proof.
  split.
  - intros before x after. apply removeExpired_first.
  - intros Hq. unfold removeExpired.
    rewrite removeExpired_loop_nothing by assumption.
    rewrite set_tasks_same, set_expiredCount_same. reflexivity.
Qed.

Lemma removeExpired_takes_first_witness :
  removeExpired true 60
    (set_tasks (tasks_ stale_manager ++ [Task.mk 3%nat Task.WAITING (Some 10)])
               stale_manager)
  = (set_expiredCount 1
       (set_tasks [Task.mk 1%nat Task.WAITING None;
                   Task.mk 3%nat Task.WAITING (Some 10)] stale_manager),
     [Expire 2%nat])
  /\ removeExpired true 20 stale_manager = (stale_manager, []).
Proof.
  split.
  - apply (proj1 (removeExpired_takes_first 60
                    (set_tasks (tasks_ stale_manager
                                ++ [Task.mk 3%nat Task.WAITING (Some 10)])
                               stale_manager))
             [Task.mk 1%nat Task.WAITING None]
             (Task.mk 2%nat Task.WAITING (Some 50))
             [Task.mk 3%nat Task.WAITING (Some 10)]).
    + reflexivity.
    + repeat constructor.
    + reflexivity.
  - apply (proj2 (removeExpired_takes_first 20 stale_manager)).
    repeat constructor.
Defined.

(** X6. The sweep frees a slot.  On a STARTED manager whose queue holds
    exactly [pendingTaskCountMax_ > 0] tasks, one of them past its
    deadline, [add] (once its guard holds the mutex) returns normally for
    every caller and every timeout, a worker thread and [timeout = -1]
    included: the first expired task is dropped and counted, the callback,
    when set, gets its runnable, and the new task is appended; an idle
    worker is notified. *)
Theorem add_sweeps_to_admit (caller : id_t) (value : Runnable)
    (timeout expiration : Z) (avail : option Z) (now : time_point) (m : Impl)
    (before behind : list Task.t) (x : Task.t) :
  state_ m = STARTED ->
  Guard.holds (Guard.ctor timeout avail) = true ->
  0 < pendingTaskCountMax_ m ->
  tasks_size m = pendingTaskCountMax_ m ->
  tasks_ m = before ++ x :: behind ->
  Forall (fun t => Task.expired now t = false) before ->
  Task.expired now x = true ->
  add caller value timeout expiration avail now m
  = ret (set_tasks (before ++ behind ++ [Task.new value expiration now])
           (set_expiredCount (wrap (expiredCount_ m + 1)) m))
        ((if expireCallback_ m then [Expire (Task.getRunnable x)] else [])
         ++ (if 0 <? idleCount_ m then [Notify monitor_] else [])).
Proof.
  intros Hst Hg Hpos Hsize Hq Hb Hx. unfold add.
  destruct (Guard.ctor timeout avail); try discriminate.
  unfold add_locked. rewrite Hst. cbn [STATE_eqb negb].
  assert (Hc : at_cap m = true).
  { apply at_cap_true. unfold backlog_full. lia. }
  unfold admission_sweep. rewrite Hc.
  rewrite (removeExpired_first now m before x behind Hq Hb Hx).
  set (m1 := set_expiredCount _ _).
  assert (Hc1 : at_cap m1 = false).
  { unfold at_cap, tasks_size in *. subst m1. cbn.
    rewrite Hq in Hsize. rewrite length_app in *. cbn in Hsize.
    apply andb_false_iff. right. apply Z.leb_gt. lia. }
  rewrite Hc1. unfold add_push, after, ret. subst m1. cbn.
  rewrite <- app_assoc. reflexivity.
Qed.

Lemma add_sweeps_to_admit_witness :
  (state_ stale_manager = STARTED
   /\ Guard.holds (Guard.ctor (-1) (Some 0)) = true
   /\ 0 < pendingTaskCountMax_ stale_manager
   /\ tasks_size stale_manager = pendingTaskCountMax_ stale_manager
   /\ tasks_ stale_manager
      = [Task.mk 1%nat Task.WAITING None]
        ++ Task.mk 2%nat Task.WAITING (Some 50) :: []
   /\ Forall (fun t => Task.expired 60 t = false)
             [Task.mk 1%nat Task.WAITING None]
   /\ Task.expired 60 (Task.mk 2%nat Task.WAITING (Some 50)) = true)
  /\ add 1%positive 9%nat (-1) 0 (Some 0) 60 stale_manager
     = ret (set_tasks ([Task.mk 1%nat Task.WAITING None] ++ []
                       ++ [Task.new 9%nat 0 60])
              (set_expiredCount (wrap (expiredCount_ stale_manager + 1))
                                stale_manager))
           ((if expireCallback_ stale_manager
             then [Expire (Task.getRunnable (Task.mk 2%nat Task.WAITING (Some 50)))]
             else [])
            ++ (if 0 <? idleCount_ stale_manager then [Notify monitor_] else [])).
Proof.
  split.
  - repeat split. repeat constructor.
  - apply (add_sweeps_to_admit 1%positive 9%nat (-1) 0 (Some 0) 60 stale_manager
             [Task.mk 1%nat Task.WAITING None] []
             (Task.mk 2%nat Task.WAITING (Some 50)));
      try reflexivity.
    repeat constructor.
Defined.

(** ** Producers waiting for the cap *)

(** X7. A producer that may sleep waits.  On a STARTED manager whose queue
    is at its nonzero cap after the one-task sweep, a call of [add] (once
    its guard holds the mutex) by a thread that is no key of [idMap_], with
    [timeout >= 0], appends nothing and waits on [maxMonitor_] with that
    timeout ([0]: for ever); what it did before is the sweep. *)
Theorem add_waits_for_slot (caller : id_t) (value : Runnable)
    (timeout expiration : Z) (avail : option Z) (now : time_point) (m : Impl) :
  state_ m = STARTED ->
  Guard.holds (Guard.ctor timeout avail) = true ->
  0 < pendingTaskCountMax_ m ->
  pendingTaskCountMax_ m <= tasks_size (fst (admission_sweep now m)) ->
  idMap_ m !! caller = None ->
  0 <= timeout ->
  add caller value timeout expiration avail now m
  = mkSeg (fst (admission_sweep now m)) (snd (admission_sweep now m))
          (Waiting maxMonitor_ timeout (K_add caller value timeout expiration)).
Proof.
  intros Hst Hg Hpos Hfull Hid Ht. unfold add.
  destruct (Guard.ctor timeout avail); try discriminate.
  pose proof (at_cap_after_sweep now m Hpos Hfull) as Hcap.
  destruct (admission_sweep_frame now m) as (_ & _ & Hidm & _).
  unfold add_locked. rewrite Hst. cbn [STATE_eqb negb].
  destruct (admission_sweep now m) as [m1 es]. cbn [fst snd] in *.
  rewrite Hcap.
  assert (Hcs : canSleep caller m1 = true).
  { unfold canSleep, getCurrentThreadId. rewrite Hidm, Hid.
    apply bool_decide_eq_true. reflexivity. }
  rewrite Hcs. apply Z.leb_le in Ht. rewrite Ht. cbn [andb].
  unfold add_wait. rewrite Hcap. unfold after. cbn. rewrite app_nil_r.
  reflexivity.
Qed.

Lemma add_waits_for_slot_witness :
  (state_ full_manager = STARTED
   /\ Guard.holds (Guard.ctor 30 (Some 0)) = true
   /\ 0 < pendingTaskCountMax_ full_manager
   /\ pendingTaskCountMax_ full_manager
      <= tasks_size (fst (admission_sweep 10 full_manager))
   /\ idMap_ full_manager !! 7%positive = None
   /\ 0 <= 30)
  /\ add 7%positive 9%nat 30 0 (Some 0) 10 full_manager
     = mkSeg (fst (admission_sweep 10 full_manager))
             (snd (admission_sweep 10 full_manager))
             (Waiting maxMonitor_ 30 (K_add 7%positive 9%nat 30 0)).
Proof.
  split.
  - split; [reflexivity |]. split; [reflexivity |]. split; [reflexivity |].
    split; [vm_compute; congruence |]. split; [reflexivity | lia].
  - apply (add_waits_for_slot 7%positive 9%nat 30 0 (Some 0) 10 full_manager);
      [reflexivity | reflexivity | reflexivity | vm_compute; congruence
      | reflexivity | lia].
Defined.

(** X8. What a producer does when [maxMonitor_.wait(timeout)] is over.
    With a nonzero timeout a wait that timed out throws and the task is not
    added.  Otherwise the test of the loop is made again on the manager as
    it is now: still at the cap, the producer waits again with the full
    timeout; below the cap (or with the cap removed meanwhile) the task is
    appended and an idle worker notified, without a second look at
    [state_]: a producer woken after [stop()] still adds its task. *)
Theorem add_after_wait (caller : id_t) (value : Runnable)
    (timeout expiration : Z) (now : time_point) (m : Impl) :
  (timeout <> 0 ->
     add_resume caller value timeout expiration true now m
     = throw TimedOut m [])
  /\ (forall timedout, timeout = 0 \/ timedout = false ->
        (at_cap m = true ->
           add_resume caller value timeout expiration timedout now m
           = mkSeg m [] (Waiting maxMonitor_ timeout
                           (K_add caller value timeout expiration)))
        /\ (at_cap m = false ->
              add_resume caller value timeout expiration timedout now m
              = ret (set_tasks (tasks_ m ++ [Task.new value expiration now]) m)
                    (if 0 <? idleCount_ m then [Notify monitor_] else []))).
Proof.
  unfold add_resume, Monitor.wait, add_wait, add_push. split.
  - intros Ht. apply Z.eqb_neq in Ht. rewrite Ht. reflexivity.
  - intros timedout Hw.
    assert (E : (if timeout =? 0 then None
                 else if timedout then Some TimedOut else None) = None).
    { destruct Hw as [-> | ->]; [reflexivity |].
      destruct (timeout =? 0); reflexivity. }
    rewrite E. split; intros ->; reflexivity.
Qed.

Lemma add_after_wait_witness :
  add_resume 7%positive 9%nat 30 0 true 10 full_manager
  = throw TimedOut full_manager []
  /\ add_resume 7%positive 9%nat 0 0 true 10 (set_state STOPPED open_manager)
     = ret (set_tasks (tasks_ open_manager ++ [Task.new 9%nat 0 10])
                      (set_state STOPPED open_manager))
           [Notify monitor_].
Proof.
  split.
  - apply (proj1 (add_after_wait 7%positive 9%nat 30 0 10 full_manager)).
    discriminate.
  - apply (proj2 (add_after_wait 7%positive 9%nat 0 0 10
                    (set_state STOPPED open_manager)) true (or_introl eq_refl)).
    reflexivity.
Defined.

(** ** The worker loop *)

Lemma expires_app a b : expires (a ++ b) = expires a ++ expires b.
Proof. unfold expires. apply omap_app. Qed.

Lemma Worker_isActive_needed queue m :
  workerCount_ m <= workerMaxCount_ m ->
  Worker.isActive (set_tasks queue m) = true.
Proof.
  intros H. unfold Worker.isActive. cbn [set_tasks workerCount_ workerMaxCount_].
  apply Z.leb_le in H. rewrite H. reflexivity.
Qed.

(** What the loop does with a queue of WAITING tasks while the worker is
    within [workerMaxCount_]. *)
Lemma Worker_loop_spec self now : forall queue m,
  workerCount_ m <= workerMaxCount_ m ->
  Forall waiting queue ->
  expires (evs (Worker.loop self now queue m))
  = (if expireCallback_ m
     then map Task.getRunnable (leading_stale now queue) else [])
  /\ expiredCount_ (st (Worker.loop self now queue m))
     = (if expireCallback_ m
        then bump (length (leading_stale now queue)) (expiredCount_ m)
        else expiredCount_ m)
  /\ tasks_ (st (Worker.loop self now queue m)) = tl (after_stale now queue)
  /\ match after_stale now queue with
     | [] =>
         res (Worker.loop self now queue m) = Waiting monitor_ 0 (K_idle self)
         /\ idleCount_ (st (Worker.loop self now queue m))
            = wrap (idleCount_ m + 1)
     | task :: _ =>
         res (Worker.loop self now queue m)
         = Unlocked (K_task self (Task.set_state Task.EXECUTING task))
         /\ idleCount_ (st (Worker.loop self now queue m)) = idleCount_ m
     end.
Proof.
  induction queue as [|front rest IH]; intros m Hw Hq; cbn [Worker.loop].
  - rewrite Worker_isActive_needed by assumption. cbn.
    destruct (expireCallback_ m); repeat split.
  - rewrite Worker_isActive_needed by assumption.
    inversion Hq as [|? ? Hf Hr]; subst. unfold waiting in Hf.
    unfold Worker.mark. rewrite Hf. cbn [Task.STATE_eqb leading_stale after_stale].
    set (es := if _ : bool then [Notify maxMonitor_] else []).
    assert (Hes : expires es = []) by (subst es; destruct (_ && _); reflexivity).
    destruct (Task.expired now front) eqn:Ex; cbn [Task.set_state Task.state_ Task.STATE_eqb].
    + cbn [expireCallback_ set_tasks]. destruct (expireCallback_ m) eqn:Ecb.
      * set (m2 := set_expiredCount _ _).
        destruct (IH m2 Hw Hr) as (H1 & H2 & H3 & H4).
        assert (Ecb2 : expireCallback_ m2 = true) by exact Ecb.
        rewrite Ecb2 in H1, H2.
        cbn [after evs st res]. rewrite !expires_app, Hes, H1, H2, H3.
        cbn [length]. rewrite <- bump_shift.
        split; [reflexivity |]. split; [reflexivity |]. split; [reflexivity |].
        exact H4.
      * set (m2 := set_tasks rest (set_tasks (front :: rest) m)).
        destruct (IH m2 Hw Hr) as (H1 & H2 & H3 & H4).
        assert (Ecb2 : expireCallback_ m2 = false) by exact Ecb.
        rewrite Ecb2 in H1, H2.
        cbn [after evs st res]. rewrite !expires_app, Hes, H1, H2, H3.
        split; [reflexivity |]. split; [reflexivity |]. split; [reflexivity |].
        exact H4.
    + cbn [evs st res tasks_ set_tasks expiredCount_ idleCount_ tl
             leading_stale length map].
      rewrite Hes. destruct (expireCallback_ m); repeat split.
Qed.

(** X9. A worker within [workerMaxCount_] and a queue of WAITING tasks.
    Coming back to the head of its loop (after a task, or woken from its
    sleep) the worker drops the tasks at the front of the queue whose
    deadline has passed, without running them, and takes the first task
    that is still in time: it marks it EXECUTING and releases the mutex to
    run it, leaving the tasks behind it queued.  When every queued task
    has expired it empties the queue and goes to sleep on [monitor_],
    counted idle.  The expire callback, when set, gets the runnable of each
    dropped task, oldest first, and [expiredCount_] counts them; without a
    callback the dropped tasks are not counted. *)
Theorem worker_takes_first_live_task (self : Thread) (now : time_point)
    (m : Impl) :
  workerCount_ m <= workerMaxCount_ m ->
  Forall waiting (tasks_ m) ->
  let s := Worker.resume self now m in
  expires (evs s)
  = (if expireCallback_ m
     then map Task.getRunnable (leading_stale now (tasks_ m)) else [])
  /\ expiredCount_ (st s)
     = (if expireCallback_ m
        then bump (length (leading_stale now (tasks_ m))) (expiredCount_ m)
        else expiredCount_ m)
  /\ tasks_ (st s) = tl (after_stale now (tasks_ m))
  /\ match after_stale now (tasks_ m) with
     | [] =>
         res s = Waiting monitor_ 0 (K_idle self)
         /\ idleCount_ (st s) = wrap (idleCount_ m + 1)
     | task :: _ =>
         res s = Unlocked (K_task self (Task.set_state Task.EXECUTING task))
         /\ idleCount_ (st s) = idleCount_ m
     end
  /\ Worker.wake self now m
     = Worker.resume self now (set_idleCount (wrap (idleCount_ m - 1)) m).
Proof.
  intros Hw Hq. cbv zeta. unfold Worker.resume.
  destruct (Worker_loop_spec self now (tasks_ m) m Hw Hq) as (H1 & H2 & H3 & H4).
  split; [exact H1 |]. split; [exact H2 |]. split; [exact H3 |].
  split; [exact H4 | reflexivity].
Qed.

Lemma worker_takes_first_live_task_witness :
  (workerCount_ stale_manager <= workerMaxCount_ stale_manager
   /\ Forall waiting (tasks_ (set_tasks (rev (tasks_ stale_manager)) stale_manager)))
  /\ expires (evs (Worker.resume 1%positive 60
                     (set_tasks (rev (tasks_ stale_manager)) stale_manager)))
     = [2%nat]
  /\ tasks_ (st (Worker.resume 1%positive 60
                   (set_tasks (rev (tasks_ stale_manager)) stale_manager)))
     = []
  /\ res (Worker.resume 1%positive 60
            (set_tasks (rev (tasks_ stale_manager)) stale_manager))
     = Unlocked (K_task 1%positive (Task.mk 1%nat Task.EXECUTING None)).
Proof.
  split; [split; [cbn; lia | repeat constructor] |].
  destruct (worker_takes_first_live_task 1%positive 60
              (set_tasks (rev (tasks_ stale_manager)) stale_manager))
    as (H1 & _ & H3 & H4 & _).
  - cbn. lia.
  - repeat constructor.
  - split; [exact H1 |]. split; [exact H3 |]. apply H4.
Defined.







Lemma Worker_leave_no_max self m :
  ~ In (Notify maxMonitor_) (evs (Worker.leave self m)).
Proof.
  unfold Worker.leave. cbn [ret evs].
  match goal with |- context [if ?b then _ else _] => destruct b end;
    cbn; intuition discriminate.
Qed.

Lemma Worker_loop_no_cap self now : forall queue m,
  pendingTaskCountMax_ m = 0 ->
  ~ In (Notify maxMonitor_) (evs (Worker.loop self now queue m)).
Proof.
  induction queue as [|front rest IH]; intros m Hcap; cbn [Worker.loop].
  - destruct (Worker.isActive _); [cbn; tauto | apply Worker_leave_no_max].
  - destruct (Worker.isActive _); [| apply Worker_leave_no_max].
    cbn [pendingTaskCountMax_ set_tasks]. rewrite Hcap. cbn [Z.eqb negb andb].
    destruct (Task.STATE_eqb _ _); [cbn; tauto |].
    cbn [expireCallback_ set_tasks].
    destruct (expireCallback_ m); cbn [after evs app].
    + intros H. cbn in H. destruct H as [F | H]; [discriminate |].
      revert H. apply IH. exact Hcap.
    + apply IH. exact Hcap.
Qed.

(** X11. Workers wake producers.  When an active worker takes the front
    task of a capped queue that holds no more than [pendingTaskCountMax_]
    tasks, the first thing it does is notify [maxMonitor_], whether the
    task is then run or dropped as expired: a slot is free for a producer
    blocked in [add].  On a manager without cap a worker never notifies
    [maxMonitor_]. *)
Theorem worker_wakes_producer (self : Thread) (now : time_point) (m : Impl) :
  (Worker.isActive m = true ->
   tasks_ m <> [] ->
   0 < pendingTaskCountMax_ m ->
   tasks_size m <= pendingTaskCountMax_ m ->
   exists es, evs (Worker.resume self now m) = Notify maxMonitor_ :: es)
  /\ (pendingTaskCountMax_ m = 0 ->
      ~ In (Notify maxMonitor_) (evs (Worker.resume self now m))).
Proof.
  unfold Worker.resume. split.
  - intros Ha Hq Hpos Hsize. destruct (tasks_ m) as [|front rest] eqn:E;
      [congruence |].
    cbn [Worker.loop]. rewrite <- E, set_tasks_same, Ha.
    assert (Hn : negb (pendingTaskCountMax_ (set_tasks rest m) =? 0)
                 && (tasks_size (set_tasks rest m)
                     <=? pendingTaskCountMax_ (set_tasks rest m) - 1) = true).
    { cbn [pendingTaskCountMax_ set_tasks]. unfold tasks_size in *.
      rewrite E in Hsize. cbn [tasks_ set_tasks length] in *.
      apply andb_true_iff. split.
      - apply negb_true_iff, Z.eqb_neq. lia.
      - apply Z.leb_le. lia. }
    rewrite Hn. destruct (Task.STATE_eqb _ _); [cbn; eauto |].
    destruct (expireCallback_ _); cbn; eauto.
  - apply Worker_loop_no_cap.
Qed.

Lemma worker_wakes_producer_witness :
  (Worker.isActive full_manager = true
   /\ tasks_ full_manager <> []
   /\ 0 < pendingTaskCountMax_ full_manager
   /\ tasks_size full_manager <= pendingTaskCountMax_ full_manager)
  /\ exists es,
       evs (Worker.resume 1%positive 10 full_manager) = Notify maxMonitor_ :: es.
Proof.
  split.
  - split; [reflexivity |]. split; [discriminate |]. split; [reflexivity |].
    vm_compute. congruence.
  - apply (proj1 (worker_wakes_producer 1%positive 10 full_manager));
      [reflexivity | discriminate | reflexivity | vm_compute; congruence].
Defined.

(** ** Filling the pool *)

Lemma final_cons m s segs : final m (s :: segs) = final (st s) segs.
Proof. reflexivity. Qed.

Lemma run_each_fills (now : time_point) (threads : list Thread) : forall m : Impl,
  tasks_ m = [] ->
  0 <= workerCount_ m ->
  workerCount_ m + Z.of_nat (length threads) <= workerMaxCount_ m ->
  workerMaxCount_ m < size_t_modulus ->
  0 <= idleCount_ m ->
  idleCount_ m + Z.of_nat (length threads) < size_t_modulus ->
  let segs := run_each threads now m in
  map res segs = map (fun t => Waiting monitor_ 0 (K_idle t)) threads
  /\ Forall (fun s => evs s
                      = if workerCount_ (st s) =? workerMaxCount_ m
                        then [Notify workerMonitor_] else []) segs
  /\ workerCount_ (final m segs) = workerCount_ m + Z.of_nat (length threads)
  /\ idleCount_ (final m segs) = idleCount_ m + Z.of_nat (length threads)
  /\ tasks_ (final m segs) = []
  /\ (workerCount_ m + Z.of_nat (length threads) = workerMaxCount_ m ->
      addWorker_wait (final m segs) = ret (final m segs) []).
Proof.
  induction threads as [|t threads IH]; intros m Hq Hw Hroom Hmax Hi Hiroom;
    cbv zeta.
  - cbn. repeat split; try lia; try constructor; try assumption.
    intros E. unfold addWorker_wait.
    replace (workerCount_ m =? workerMaxCount_ m) with true
      by (symmetry; apply Z.eqb_eq; lia).
    reflexivity.
  - cbn [length] in *. rewrite Nat2Z.inj_succ in *.
    cbn [run_each]. set (s := Worker.run t now m).
    assert (Hs : s = mkSeg (set_idleCount (idleCount_ m + 1)
                              (set_workerCount (workerCount_ m + 1) m))
                           (if workerCount_ m + 1 =? workerMaxCount_ m
                            then [Notify workerMonitor_] else [])
                           (Waiting monitor_ 0 (K_idle t))).
    { subst s. unfold Worker.run.
      replace (workerCount_ m <? workerMaxCount_ m) with true
        by (symmetry; apply Z.ltb_lt; lia).
      rewrite (wrap_small (workerCount_ m + 1)) by (unfold is_size_t; lia).
      cbn [tasks_ set_workerCount workerCount_ workerMaxCount_]. rewrite Hq.
      cbn [Worker.loop].
      rewrite Worker_isActive_needed by (cbn; lia).
      cbn [idleCount_ set_tasks set_workerCount].
      rewrite (wrap_small (idleCount_ m + 1)) by (unfold is_size_t; lia).
      unfold after. cbn [st evs res]. rewrite app_nil_r.
      f_equal. destruct m; cbn in *; subst; reflexivity. }
    specialize (IH (st s)). rewrite Hs in IH. cbn [st] in IH.
    cbn [tasks_ workerCount_ workerMaxCount_ idleCount_ set_idleCount
           set_workerCount] in IH.
    destruct IH as (H1 & H2 & H3 & H4 & H5 & H6); try lia; try assumption.
    rewrite final_cons. rewrite Hs. cbn [st res map].
    rewrite H1, H3, H4, H5.
    split; [reflexivity |]. split; [| repeat split; try lia].
    + constructor; [| exact H2]. reflexivity.
    + intros E. apply H6. lia.
Qed.

(** X12. The pool fills.  On a manager with an empty queue that still
    lacks at least as many workers as there are threads in [threads]
    ([workerCount_ + n <= workerMaxCount_], all counters in range), the
    threads entering [Worker::run] one after the other each count
    themselves in and go to sleep on [monitor_], idle; [workerMonitor_] is
    notified by the thread that brings [workerCount_] to
    [workerMaxCount_] and by no other.  In the end [workerCount_] and
    [idleCount_] have both gone up by [n], and when the pool is then full
    the waiting [addWorker] returns. *)
Theorem pool_fills (now : time_point) (threads : list Thread) : forall m : Impl,
  tasks_ m = [] ->
  0 <= workerCount_ m ->
  workerCount_ m + Z.of_nat (length threads) <= workerMaxCount_ m ->
  workerMaxCount_ m < size_t_modulus ->
  0 <= idleCount_ m ->
  idleCount_ m + Z.of_nat (length threads) < size_t_modulus ->
  let segs := run_each threads now m in
  map res segs = map (fun t => Waiting monitor_ 0 (K_idle t)) threads
  /\ Forall (fun s => evs s
                      = if workerCount_ (st s) =? workerMaxCount_ m
                        then [Notify workerMonitor_] else []) segs
  /\ workerCount_ (final m segs) = workerCount_ m + Z.of_nat (length threads)
  /\ idleCount_ (final m segs) = idleCount_ m + Z.of_nat (length threads)
  /\ tasks_ (final m segs) = []
  /\ (workerCount_ m + Z.of_nat (length threads) = workerMaxCount_ m ->
      addWorker_wait (final m segs) = ret (final m segs) []).
Proof. apply run_each_fills. Qed.

Lemma pool_fills_witness :
  (tasks_ hiring_manager = []
   /\ 0 <= workerCount_ hiring_manager
   /\ workerCount_ hiring_manager + Z.of_nat (length [1; 2; 3]%positive)
      <= workerMaxCount_ hiring_manager
   /\ workerMaxCount_ hiring_manager < size_t_modulus
   /\ 0 <= idleCount_ hiring_manager
   /\ idleCount_ hiring_manager + Z.of_nat (length [1; 2; 3]%positive)
      < size_t_modulus)
  /\ workerCount_ (final hiring_manager
                     (run_each [1; 2; 3]%positive 0 hiring_manager))
     = workerCount_ hiring_manager + Z.of_nat (length [1; 2; 3]%positive)
  /\ addWorker_wait (final hiring_manager
                       (run_each [1; 2; 3]%positive 0 hiring_manager))
     = ret (final hiring_manager (run_each [1; 2; 3]%positive 0 hiring_manager)) [].
Proof.
  split.
  - repeat split; vm_compute; congruence.
  - destruct (pool_fills 0 [1; 2; 3]%positive hiring_manager)
      as (_ & _ & H3 & _ & _ & H6);
      try (vm_compute; congruence); try reflexivity.
    split; [exact H3 |]. apply H6. reflexivity.
Defined.

(** ** addWorker *)

Lemma idMap_insert_lookup k t (idm : gmap id_t Thread) j :
  idMap_insert k t idm !! j
  = match idm !! j with
    | Some v => Some v
    | None => if decide (k = j) then Some t else None
    end.
Proof.
  unfold idMap_insert. destruct (idm !! k) eqn:Ek.
  - destruct (idm !! j) eqn:Ej; [reflexivity |].
    destruct (decide (k = j)); [congruence | reflexivity].
  - rewrite lookup_insert. destruct (decide (k = j)) as [-> | Hne].
    + rewrite Ek. reflexivity.
    + destruct (idm !! j); reflexivity.
Qed.

Lemma idMap_insert_all : forall (l : list Thread) (idm : gmap id_t Thread) j,
  foldl (fun acc t => idMap_insert (getId t) t acc) idm l !! j
  = match idm !! j with
    | Some v => Some v
    | None => if decide (j ∈ l) then Some j else None
    end.
Proof.
  unfold id_t, Thread.
  induction l as [|t l IH]; intros idm j; cbn [foldl].
  - destruct (idm !! j); [reflexivity |].
    destruct (decide (j ∈ [])) as [F |]; [| reflexivity].
    apply elem_of_nil in F. destruct F.
  - rewrite IH, idMap_insert_lookup. unfold getId, id_t, Thread.
    destruct (idm !! j); [reflexivity |].
    destruct (decide (t = j)) as [-> | Hne].
    + destruct (decide (j ∈ j :: l)) as [_ | F]; [reflexivity |].
      exfalso. apply F. left.
    + destruct (decide (j ∈ l)) as [Hin | Hnin];
        destruct (decide (j ∈ t :: l)) as [Hin' | Hnin'];
        try reflexivity.
      * exfalso. apply Hnin'. right. exact Hin.
      * exfalso. apply elem_of_cons in Hin' as [E | Hin'];
          [congruence | contradiction].
Qed.

Lemma addWorker_unfold newThreads m f :
  threadFactory_ m = Some f ->
  addWorker newThreads m
  = after (map StartThread newThreads)
      (addWorker_wait
         (set_idMap
            (foldl (fun acc t => idMap_insert (getId t) t acc) (idMap_ m)
                   newThreads)
            (set_workers (workers_ m ∪ list_to_set newThreads)
               (set_workerMaxCount
                  (wrap (workerMaxCount_ m + Z.of_nat (length newThreads)))
                  m)))).
Proof. intros Hf. unfold addWorker. rewrite Hf. destruct newThreads; reflexivity. Qed.

Lemma addWorker_wait_shape m :
  st (addWorker_wait m) = m /\ evs (addWorker_wait m) = []
  /\ res (addWorker_wait m)
     = (if workerCount_ m =? workerMaxCount_ m
        then Returned None else Waiting workerMonitor_ 0 K_addWorker).
Proof.
  unfold addWorker_wait. destruct (workerCount_ m =? workerMaxCount_ m);
    repeat split.
Qed.



(** ** removeWorkersUnderLock: the end of the wait *)

Lemma erase_dead_workers : forall (dead : list Thread) (ws : gset Thread),
  foldr (fun w acc => acc ∖ {[ w ]}) ws dead = ws ∖ list_to_set dead.
Proof.
  induction dead as [|d dead IH]; intros ws; cbn [foldr list_to_set].
  - set_solver.
  - rewrite IH. set_solver.
Qed.

Lemma erase_dead_ids : forall (dead : list Thread) (idm : gmap id_t Thread) k,
  foldr (fun w acc => delete (getId w) acc) idm dead !! k
  = if decide (k ∈ dead) then None else idm !! k.
Proof.
  unfold id_t, Thread.
  induction dead as [|d dead IH]; intros idm k; cbn [foldr].
  - destruct (decide (k ∈ [])) as [F |]; [| reflexivity].
    apply elem_of_nil in F. destruct F.
  - unfold getId. rewrite lookup_delete. unfold id_t, Thread.
    destruct (decide (d = k)) as [-> | Hne].
    + destruct (decide (k ∈ k :: dead)) as [_ | F]; [reflexivity |].
      exfalso. apply F. left.
    + rewrite IH. destruct (decide (k ∈ dead)) as [Hin | Hnin];
        destruct (decide (k ∈ d :: dead)) as [Hin' | Hnin']; try reflexivity.
      * exfalso. apply Hnin'. right. exact Hin.
      * exfalso. apply elem_of_cons in Hin' as [E | Hin'];
          [congruence | contradiction].
Qed.



(** ** stop *)

(** X15. [stop()] case by case.  On a manager that is already JOINING,
    STOPPING or STOPPED it only stores STOPPED: it lowers no worker count,
    wakes and waits for nobody.  Otherwise it stores JOINING first and
    asks for the removal of [workerCount_] workers; when that is more than
    [workerMaxCount_] the invalid-argument exception leaves [stop()] with
    the state JOINING and nothing else changed.  In the usual case of a
    full pool ([workerCount_ = workerMaxCount_ > 0], [idleCount_] no more
    than that) [workerMaxCount_] becomes 0, all sleepers on [monitor_] are
    woken by one [notifyAll] and [stop()] waits on [workerMonitor_]; when
    the last worker has left, the waiting [stop()] clears out the dead
    workers and stores STOPPED. *)
Theorem stop_by_cases (m : Impl) :
  (state_ m = JOINING \/ state_ m = STOPPING \/ state_ m = STOPPED ->
     stop m = ret (set_state STOPPED m) [Assign STOPPED])
  /\ (state_ m = UNINITIALIZED \/ state_ m = STARTING \/ state_ m = STARTED ->
      (workerMaxCount_ m < workerCount_ m ->
         stop m = throw InvalidArgument (set_state JOINING m) [Assign JOINING])
      /\ (workerCount_ m = workerMaxCount_ m -> 0 < workerCount_ m ->
          idleCount_ m <= workerCount_ m ->
          stop m
          = mkSeg (set_workerMaxCount 0 (set_state JOINING m))
                  [Assign JOINING; NotifyAll monitor_]
                  (Waiting workerMonitor_ 0 (K_removeWorkers true))))
  /\ (workerCount_ m = workerMaxCount_ m ->
      forall f, threadFactory_ m = Some f ->
        res (removeWorkers_resume true m) = Returned None
        /\ state_ (st (removeWorkers_resume true m)) = STOPPED
        /\ deadWorkers_ (st (removeWorkers_resume true m)) = ∅
        /\ workers_ (st (removeWorkers_resume true m))
           = workers_ m ∖ deadWorkers_ m).
Proof.
  split; [| split].
  - unfold stop. intros [E | [E | E]]; rewrite E; reflexivity.
  - intros Hst. split.
    + intros Hgt. unfold stop, removeWorkersUnderLock.
      cbn [workerMaxCount_ set_state]. apply Z.ltb_lt in Hgt. rewrite Hgt.
      destruct Hst as [E | [E | E]]; rewrite E; reflexivity.
    + intros Heq Hpos Hidle. unfold stop, removeWorkersUnderLock.
      cbn [workerMaxCount_ set_state]. rewrite <- Heq, Z.ltb_irrefl, Z.sub_diag.
      unfold wake_sleepers, removeWorkers_wait.
      cbn [idleCount_ workerCount_ workerMaxCount_ set_workerMaxCount set_state].
      replace (workerCount_ m <? idleCount_ m) with false
        by (symmetry; apply Z.ltb_ge; lia).
      replace (workerCount_ m =? 0) with false
        by (symmetry; apply Z.eqb_neq; lia).
      destruct Hst as [E | [E | E]]; rewrite E; reflexivity.
  - intros Heq f Hf. unfold removeWorkers_resume, removeWorkers_wait.
    apply Z.eqb_eq in Heq. rewrite Heq. cbn [negb].
    unfold drainDeadWorkers. rewrite Hf.
    destruct (elements (deadWorkers_ m)) as [|d dead] eqn:E.
    + apply elements_empty_inv in E. apply leibniz_equiv in E.
      cbn. rewrite E. repeat split. set_solver.
    + rewrite <- E. cbn. repeat split.
      rewrite erase_dead_workers, list_to_set_elements_L. reflexivity.
Qed.

Lemma stop_by_cases_witness :
  stop (set_state STOPPED full_manager)
  = ret (set_state STOPPED (set_state STOPPED full_manager)) [Assign STOPPED]
  /\ stop (set_workerMaxCount 1 full_manager)
     = throw InvalidArgument
         (set_state JOINING (set_workerMaxCount 1 full_manager))
         [Assign JOINING]
  /\ stop full_manager
     = mkSeg (set_workerMaxCount 0 (set_state JOINING full_manager))
             [Assign JOINING; NotifyAll monitor_]
             (Waiting workerMonitor_ 0 (K_removeWorkers true)).
Proof.
  split; [| split].
  - apply (proj1 (stop_by_cases (set_state STOPPED full_manager))).
    right. right. reflexivity.
  - apply (proj1 (proj1 (proj2 (stop_by_cases (set_workerMaxCount 1 full_manager)))
                    (or_intror (or_intror eq_refl)))).
    reflexivity.
  - apply (proj2 (proj1 (proj2 (stop_by_cases full_manager))
                    (or_intror (or_intror eq_refl))));
      [reflexivity | reflexivity | vm_compute; congruence].
Defined.

(** ** SimpleThreadManager::start *)

Lemma length_supply (supply : nat -> Thread) (count : Z) :
  0 <= count -> Z.of_nat (length (map supply (seq 0 (Z.to_nat count)))) = count.
Proof. intros H. rewrite length_map, length_seq. lia. Qed.

(** X16. [SimpleThreadManager::start()] on a manager that was never
    started, has a factory and no worker yet, for a worker count [n] with
    [0 < n < 2^64].  The call sets the cap, moves the state to STARTED
    and starts [n] threads; it then waits on [workerMonitor_] with
    [workerMaxCount_ = n].  When, on an empty queue, the [n] threads have
    entered [Worker::run], [workerCount_] is [n], all [n] workers sleep
    idle, and the wait of [start()] is over. *)
Theorem SimpleThreadManager_start_fills (self : SimpleThreadManager.t)
    (supply : nat -> Thread) (now : time_point) (m : Impl) (f : ThreadFactory) :
  state_ m = UNINITIALIZED ->
  threadFactory_ m = Some f ->
  workerCount_ m = 0 -> workerMaxCount_ m = 0 -> idleCount_ m = 0 ->
  tasks_ m = [] ->
  0 < SimpleThreadManager.workerCount_ self < size_t_modulus ->
  let threads :=
    map supply (seq 0 (Z.to_nat (SimpleThreadManager.workerCount_ self))) in
  let s := SimpleThreadManager.start self supply m in
  let m' := final (st s) (run_each threads now (st s)) in
  res s = Waiting workerMonitor_ 0 K_addWorker
  /\ evs s = Assign STARTED :: NotifyAll monitor_ :: map StartThread threads
  /\ state_ (st s) = STARTED
  /\ pendingTaskCountMax_ (st s) = SimpleThreadManager.pendingTaskCountMax_ self
  /\ workerMaxCount_ (st s) = SimpleThreadManager.workerCount_ self
  /\ workerCount_ m' = SimpleThreadManager.workerCount_ self
  /\ idleCount_ m' = SimpleThreadManager.workerCount_ self
  /\ resume K_addWorker false now m' = ret m' [].
Proof.
  intros Hst Hf Hwc Hmax Hidle Hq Hn. cbv zeta.
  set (threads := map supply (seq 0 (Z.to_nat (SimpleThreadManager.workerCount_ self)))).
  assert (Hlen : Z.of_nat (length threads) = SimpleThreadManager.workerCount_ self)
    by (apply length_supply; lia).
  assert (Hs : SimpleThreadManager.start self supply m
               = mkSeg (set_idMap
                          (foldl (fun acc t => idMap_insert (getId t) t acc)
                                 (idMap_ m) threads)
                          (set_workers (workers_ m ∪ list_to_set threads)
                             (set_workerMaxCount
                                (SimpleThreadManager.workerCount_ self)
                                (set_state STARTED
                                   (set_pendingTaskCountMax
                                      (SimpleThreadManager.pendingTaskCountMax_ self)
                                      m)))))
                       (Assign STARTED :: NotifyAll monitor_
                        :: map StartThread threads)
                       (Waiting workerMonitor_ 0 K_addWorker)).
  { unfold SimpleThreadManager.start, pendingTaskCountMax, start.
    cbn [ret st evs res state_ threadFactory_ set_pendingTaskCountMax].
    rewrite Hst, Hf. cbn [STATE_eqb]. unfold start_wait.
    cbn [state_ set_state STATE_eqb after ret st evs res app].
    unfold addWorker_value. fold threads.
    rewrite (addWorker_unfold threads _ f) by exact Hf.
    cbn [workerMaxCount_ set_state set_pendingTaskCountMax workers_ idMap_].
    rewrite Hmax, Hlen, Z.add_0_l.
    rewrite wrap_small by (unfold is_size_t; lia).
    unfold addWorker_wait.
    cbn [workerCount_ workerMaxCount_ set_idMap set_workers set_workerMaxCount
           set_state set_pendingTaskCountMax].
    rewrite Hwc.
    replace (0 =? SimpleThreadManager.workerCount_ self) with false
      by (symmetry; apply Z.eqb_neq; lia).
    unfold after. cbn [st evs res app]. rewrite app_nil_r. reflexivity. }
  rewrite Hs. cbn [st evs res].
  set (m1 := set_idMap _ _).
  destruct (run_each_fills now threads m1) as (_ & _ & H3 & H4 & _ & H6);
    try (subst m1; cbn; lia); try (subst m1; cbn; assumption).
  split; [reflexivity |]. split; [reflexivity |]. split; [reflexivity |].
  split; [reflexivity |]. split; [reflexivity |].
  rewrite H3, H4. subst m1. cbn [workerCount_ idleCount_ set_idMap set_workers
    set_workerMaxCount set_state set_pendingTaskCountMax].
  rewrite Hwc, Hidle, Hlen. split; [lia |]. split; [lia |].
  cbn [resume]. apply H6. cbn. lia.
Qed.

Lemma SimpleThreadManager_start_fills_witness :
  (state_ (set_threadFactory joinable Impl_new) = UNINITIALIZED
   /\ threadFactory_ (set_threadFactory joinable Impl_new)
      = Some (mkThreadFactory false)
   /\ 0 < SimpleThreadManager.workerCount_ (SimpleThreadManager.mk 2 5)
        < size_t_modulus)
  /\ res (SimpleThreadManager.start (SimpleThreadManager.mk 2 5)
            Pos.of_succ_nat (set_threadFactory joinable Impl_new))
     = Waiting workerMonitor_ 0 K_addWorker
  /\ workerCount_
       (final (st (SimpleThreadManager.start (SimpleThreadManager.mk 2 5)
                     Pos.of_succ_nat (set_threadFactory joinable Impl_new)))
              (run_each (map Pos.of_succ_nat (seq 0 (Z.to_nat 2))) 0
                 (st (SimpleThreadManager.start (SimpleThreadManager.mk 2 5)
                        Pos.of_succ_nat (set_threadFactory joinable Impl_new)))))
     = 2.
Proof.
  split; [repeat split; vm_compute; congruence |].
  destruct (SimpleThreadManager_start_fills (SimpleThreadManager.mk 2 5)
              Pos.of_succ_nat 0 (set_threadFactory joinable Impl_new)
              (mkThreadFactory false))
    as (H1 & _ & _ & _ & _ & H6 & _);
    try reflexivity; [split; vm_compute; congruence |].
  split; [exact H1 | exact H6].
Defined.

Lemma after_nil s : after [] s = s.
Proof. destruct s; reflexivity. Qed.

Lemma addWorker_state_workers newThreads m f :
  threadFactory_ m = Some f ->
  state_ (st (addWorker newThreads m)) = state_ m
  /\ workers_ (st (addWorker newThreads m))
     = workers_ m ∪ list_to_set newThreads.
Proof.
  intros Hf. rewrite (addWorker_unfold _ _ f Hf).
  set (m3 := set_idMap _ _).
  destruct (addWorker_wait_shape m3) as (Hs & _ & _).
  cbn [after st]. rewrite Hs. split; reflexivity.
Qed.

(** X17. [SimpleThreadManager::start()] off the usual path.  On a manager
    that was never started and has no factory, [Impl::start()] throws and
    no worker is added, but the cap has already been set.  On a manager
    that was stopped, [Impl::start()] returns without a word, so the call
    goes on to [addWorker]: it is [addWorker(workerCount_)] on the manager
    with the new cap, and the state stays STOPPED. *)
Theorem SimpleThreadManager_start_edges (self : SimpleThreadManager.t)
    (supply : nat -> Thread) (m : Impl) :
  (state_ m = UNINITIALIZED -> threadFactory_ m = None ->
     SimpleThreadManager.start self supply m
     = throw InvalidArgument
         (set_pendingTaskCountMax
            (SimpleThreadManager.pendingTaskCountMax_ self) m) [])
  /\ (state_ m = STOPPED ->
      SimpleThreadManager.start self supply m
      = addWorker_value supply (SimpleThreadManager.workerCount_ self)
          (set_pendingTaskCountMax
             (SimpleThreadManager.pendingTaskCountMax_ self) m)
      /\ forall f, threadFactory_ m = Some f ->
           state_ (st (SimpleThreadManager.start self supply m)) = STOPPED
           /\ workers_ (st (SimpleThreadManager.start self supply m))
              = workers_ m
                ∪ list_to_set
                    (map supply
                       (seq 0 (Z.to_nat (SimpleThreadManager.workerCount_ self))))).
Proof.
  unfold SimpleThreadManager.start, pendingTaskCountMax, start.
  cbn [ret st evs res state_ threadFactory_ set_pendingTaskCountMax]. split.
  - intros -> ->. reflexivity.
  - intros Hst. rewrite Hst. cbn [STATE_eqb ret res st evs app].
    rewrite after_nil.
    split; [reflexivity |]. intros f Hf. unfold addWorker_value.
    destruct (addWorker_state_workers
                (map supply
                   (seq 0 (Z.to_nat (SimpleThreadManager.workerCount_ self))))
                (set_pendingTaskCountMax
                   (SimpleThreadManager.pendingTaskCountMax_ self) m) f Hf)
      as [H1 H2].
    rewrite H1, H2. cbn [state_ workers_ set_pendingTaskCountMax].
    split; [assumption | reflexivity].
Qed.

Lemma SimpleThreadManager_start_edges_witness :
  SimpleThreadManager.start (SimpleThreadManager.mk 2 5) Pos.of_succ_nat Impl_new
  = throw InvalidArgument (set_pendingTaskCountMax 5 Impl_new) []
  /\ state_ (st (SimpleThreadManager.start (SimpleThreadManager.mk 2 5)
                   Pos.of_succ_nat (set_state STOPPED open_manager)))
     = STOPPED.
Proof.
  split.
  - apply (proj1 (SimpleThreadManager_start_edges (SimpleThreadManager.mk 2 5)
                    Pos.of_succ_nat Impl_new)); reflexivity.
  - apply (proj2 (proj2 (SimpleThreadManager_start_edges
                           (SimpleThreadManager.mk 2 5) Pos.of_succ_nat
                           (set_state STOPPED open_manager)) eq_refl)
             (mkThreadFactory false) eq_refl).
Defined.

(** ** What the segments leave alone *)

Lemma same_setup_refl m : same_setup m m.
Proof. repeat split. Qed.

Lemma same_setup_trans m1 m2 m3 :
  same_setup m1 m2 -> same_setup m2 m3 -> same_setup m1 m3.
Proof.
  unfold same_setup. intros (A1 & A2 & A3 & A4 & A5 & A6)
    (B1 & B2 & B3 & B4 & B5 & B6).
  repeat split; congruence.
Qed.

Lemma tame_shrink m m' :
  same_setup m m' -> tasks_ m' `sublist_of` tasks_ m -> tame m m'.
Proof. intros Hs Hq. split; [exact Hs |]. exists (tasks_ m'). auto. Qed.

Lemma tame_refl m : tame m m.
Proof. apply tame_shrink; [apply same_setup_refl | reflexivity]. Qed.

Lemma tame_from m m1 m2 :
  same_setup m m1 -> tasks_ m1 `sublist_of` tasks_ m -> tame m1 m2 -> tame m m2.
Proof.
  intros Hs Hq [Hs' (kept & Hk & Hcase)]. split.
  - eapply same_setup_trans; eassumption.
  - exists kept. split; [| exact Hcase]. etrans; eassumption.
Qed.

Lemma removeExpired_loop_sublist justOne cb now : forall it count,
  (removeExpired_loop justOne cb now it count).1.1 `sublist_of` it.
Proof.
  induction it as [|t rest IH]; intros count; cbn [removeExpired_loop].
  - reflexivity.
  - destruct (Task.expired now t).
    + destruct justOne.
      * cbn. apply sublist_cons. reflexivity.
      * specialize (IH (wrap (count + 1))).
        destruct (removeExpired_loop false cb now rest (wrap (count + 1)))
          as [[keep c'] es].
        cbn in *. apply sublist_cons. exact IH.
    + specialize (IH count).
      destruct (removeExpired_loop justOne cb now rest count) as [[keep c'] es].
      cbn in *. apply sublist_skip. exact IH.
Qed.

Lemma removeExpired_tame justOne now m :
  same_setup m (fst (removeExpired justOne now m))
  /\ tasks_ (fst (removeExpired justOne now m)) `sublist_of` tasks_ m.
Proof.
  unfold removeExpired.
  pose proof (removeExpired_loop_sublist justOne (expireCallback_ m) now
                (tasks_ m) (expiredCount_ m)) as H.
  destruct (removeExpired_loop _ _ _ _ _) as [[keep c'] es]. cbn in *.
  split; [repeat split | exact H].
Qed.

Lemma admission_sweep_tame now m :
  same_setup m (fst (admission_sweep now m))
  /\ tasks_ (fst (admission_sweep now m)) `sublist_of` tasks_ m.
Proof.
  unfold admission_sweep. destruct (at_cap m).
  - apply removeExpired_tame.
  - split; [apply same_setup_refl | reflexivity].
Qed.

Lemma add_push_tame value expiration now m :
  tame m (st (add_push value expiration now m)).
Proof.
  unfold add_push. cbn [ret st]. split; [repeat split |].
  exists (tasks_ m). split; [reflexivity |]. right. cbn. eauto.
Qed.

Lemma add_wait_tame caller value timeout expiration now m :
  tame m (st (add_wait caller value timeout expiration now m)).
Proof.
  unfold add_wait. destruct (at_cap m); [apply tame_refl | apply add_push_tame].
Qed.

Lemma add_tame caller value timeout expiration avail now m :
  tame m (st (add caller value timeout expiration avail now m)).
Proof.
  unfold add. destruct (Guard.ctor timeout avail); try apply tame_refl.
  unfold add_locked. destruct (negb _); [apply tame_refl |].
  destruct (admission_sweep_tame now m) as [Hs Hq].
  destruct (admission_sweep now m) as [m1 es]. cbn [fst] in *.
  destruct (at_cap m1).
  - destruct (canSleep caller m1 && (0 <=? timeout)); cbn [after st throw].
    + eapply tame_from; [exact Hs | exact Hq | apply add_wait_tame].
    + apply tame_shrink; assumption.
  - cbn [after st]. eapply tame_from; [exact Hs | exact Hq | apply add_push_tame].
Qed.

Lemma erase_first_sublist task : forall it, erase_first task it `sublist_of` it.
Proof.
  induction it as [|x rest IH]; cbn; [reflexivity |].
  destruct (Nat.eqb _ _); [apply sublist_cons; reflexivity |].
  apply sublist_skip. exact IH.
Qed.

Lemma Worker_leave_tame self m : tame m (st (Worker.leave self m)).
Proof.
  unfold Worker.leave. cbn [ret st]. apply tame_shrink; [repeat split |].
  reflexivity.
Qed.

Lemma Worker_loop_tame self now : forall queue m,
  same_setup m (st (Worker.loop self now queue m))
  /\ tasks_ (st (Worker.loop self now queue m)) `sublist_of` queue.
Proof.
  induction queue as [|front rest IH]; intros m; cbn [Worker.loop].
  - destruct (Worker.isActive _).
    + cbn. split; [repeat split | reflexivity].
    + unfold Worker.leave. cbn. split; [repeat split | reflexivity].
  - destruct (Worker.isActive _).
    + destruct (Task.STATE_eqb _ _).
      * cbn. split; [repeat split |]. apply sublist_cons. reflexivity.
      * cbn [expireCallback_ set_tasks]. destruct (expireCallback_ m);
          cbn [after st].
        -- destruct (IH (set_expiredCount (wrap (expiredCount_ m + 1))
                           (set_tasks rest (set_tasks (front :: rest) m))))
             as [Hs Hq].
           split; [| apply sublist_cons; exact Hq].
           eapply same_setup_trans; [| exact Hs]. repeat split.
        -- destruct (IH (set_tasks rest (set_tasks (front :: rest) m)))
             as [Hs Hq].
           split; [| apply sublist_cons; exact Hq].
           eapply same_setup_trans; [| exact Hs]. repeat split.
    + unfold Worker.leave. cbn. split; [repeat split | reflexivity].
Qed.

Lemma Worker_loop_tame_own self now m m1 :
  same_setup m m1 -> tasks_ m1 = tasks_ m ->
  tame m (st (Worker.loop self now (tasks_ m1) m1)).
Proof.
  intros Hs Hq. destruct (Worker_loop_tame self now (tasks_ m1) m1) as [Hs' Hq'].
  apply tame_shrink.
  - eapply same_setup_trans; eassumption.
  - rewrite <- Hq. exact Hq'.
Qed.

Lemma Worker_run_tame self now m : tame m (st (Worker.run self now m)).
Proof.
  unfold Worker.run. destruct (workerCount_ m <? workerMaxCount_ m).
  - cbn [after st]. apply Worker_loop_tame_own; [repeat split | reflexivity].
  - apply Worker_leave_tame.
Qed.

(** The calls and wake-ups that are not about the pool or the
    configuration. *)
Lemma call_tame c now m :
  match c with
  | C_add _ _ _ _ _ | C_remove _ | C_removeNextPending | C_removeExpiredTasks
    => tame m (st (call c now m))
  | _ => True
  end.
Proof.
  destruct c; try exact I; cbn [call].
  - apply add_tame.
  - unfold remove. destruct (negb _); [apply tame_refl |]. cbn [ret st].
    apply tame_shrink; [repeat split | apply erase_first_sublist].
  - unfold removeNextPending. destruct (negb _); [apply tame_refl |].
    destruct (tasks_ m) as [|t rest] eqn:E; [apply tame_refl |].
    cbn [st]. apply tame_shrink; [repeat split |].
    cbn. rewrite E. apply sublist_cons. reflexivity.
  - unfold removeExpiredTasks. destruct (removeExpired_tame false now m) as [Hs Hq].
    destruct (removeExpired false now m) as [m' es]. cbn [ret st fst] in *.
    apply tame_shrink; assumption.
Qed.

Lemma resume_tame k timedout now m :
  match k with
  | K_removeWorkers _ => True
  | _ => tame m (st (resume k timedout now m))
  end.
Proof.
  destruct k; try exact I; cbn [resume].
  - unfold start_wait. destruct (STATE_eqb _ _); apply tame_refl.
  - unfold addWorker_wait. destruct (negb _); apply tame_refl.
  - unfold add_resume. destruct (Monitor.wait _ _); [apply tame_refl |].
    apply add_wait_tame.
  - apply Worker_run_tame.
  - unfold Worker.wake. apply Worker_loop_tame_own; [repeat split | reflexivity].
  - unfold Worker.resume. apply Worker_loop_tame_own;
      [apply same_setup_refl | reflexivity].
Qed.

Lemma pool_step_same m m' :
  tasks_ m' = tasks_ m -> pendingTaskCountMax_ m' = pendingTaskCountMax_ m ->
  expireCallback_ m' = expireCallback_ m -> threadFactory_ m' = threadFactory_ m ->
  workers_ m' = workers_ m -> idMap_ m' = idMap_ m -> pool_step m m'.
Proof. intros. repeat split; try assumption. left. split; assumption. Qed.

Lemma drainDeadWorkers_pool m : pool_step m (st (drainDeadWorkers m)).
Proof.
  unfold drainDeadWorkers.
  destruct (elements (deadWorkers_ m)) as [|d dead] eqn:E.
  - apply pool_step_same; reflexivity.
  - destruct (threadFactory_ m) as [f|] eqn:Hf;
      [| apply pool_step_same; reflexivity].
    rewrite <- E. cbn [ret st]. repeat split. right. left.
    cbn [workers_ idMap_ set_deadWorkers set_workers set_idMap]. split.
    + rewrite erase_dead_workers, list_to_set_elements_L. reflexivity.
    + intros k. rewrite erase_dead_ids.
      destruct (decide (k ∈ elements (deadWorkers_ m))) as [Hin | Hnin].
      * rewrite decide_True; [reflexivity |]. apply elem_of_elements. exact Hin.
      * rewrite decide_False; [reflexivity |].
        intros Hin. apply Hnin. apply elem_of_elements. exact Hin.
Qed.

Lemma removeWorkers_wait_pool m : pool_step m (st (removeWorkers_wait m)).
Proof.
  unfold removeWorkers_wait. destruct (negb _).
  - apply pool_step_same; reflexivity.
  - apply drainDeadWorkers_pool.
Qed.

(** [pool_step] does not look at [workerMaxCount_] or [state_]: a manager
    that differs from [m] only there takes the same step. *)
Lemma pool_step_from m m1 m' :
  tasks_ m1 = tasks_ m -> pendingTaskCountMax_ m1 = pendingTaskCountMax_ m ->
  expireCallback_ m1 = expireCallback_ m -> threadFactory_ m1 = threadFactory_ m ->
  workers_ m1 = workers_ m -> idMap_ m1 = idMap_ m ->
  deadWorkers_ m1 = deadWorkers_ m ->
  pool_step m1 m' -> pool_step m m'.
Proof.
  intros E1 E2 E3 E4 E5 E6 E7 (H1 & H2 & H3 & H4 & H5).
  rewrite E1 in H1. rewrite E2 in H2. rewrite E3 in H3. rewrite E4 in H4.
  rewrite E5, E6, E7 in H5. repeat split; assumption.
Qed.

Lemma then_stopped_pool m s :
  pool_step m (st s) -> pool_step m (st (then_stopped s)).
Proof.
  intros H. unfold then_stopped. destruct (res s) as [r|e|c ms k|k| |];
    try exact H.
  destruct k; exact H.
Qed.

Lemma removeWorkersUnderLock_pool value m :
  pool_step m (st (removeWorkersUnderLock value m)).
Proof.
  unfold removeWorkersUnderLock. destruct (_ <? _).
  - apply pool_step_same; reflexivity.
  - cbn [after st].
    eapply pool_step_from; [.. | apply removeWorkers_wait_pool]; reflexivity.
Qed.

Lemma stop_pool m : pool_step m (st (stop m)).
Proof.
  unfold stop. destruct (_ && _).
  - cbn [after st]. apply then_stopped_pool.
    eapply pool_step_from; [.. | apply removeWorkersUnderLock_pool]; reflexivity.
  - apply pool_step_same; reflexivity.
Qed.

Lemma addWorker_pool newThreads m : pool_step m (st (addWorker newThreads m)).
Proof.
  destruct (threadFactory_ m) as [f|] eqn:Hf.
  - rewrite (addWorker_unfold _ _ f Hf). set (m3 := set_idMap _ _).
    destruct (addWorker_wait_shape m3) as (Hs & _ & _).
    cbn [after st]. rewrite Hs. subst m3. repeat split. right. right.
    exists newThreads. split; [reflexivity |].
    intros k. cbn [idMap_ set_idMap set_workers set_workerMaxCount].
    apply idMap_insert_all.
  - unfold addWorker. rewrite Hf.
    destruct newThreads as [|t ts]; [| apply pool_step_same; reflexivity].
    set (m3 := set_idMap _ _).
    destruct (addWorker_wait_shape m3) as (Hs & _ & _).
    cbn [after st]. rewrite Hs. subst m3.
    apply pool_step_same; try reflexivity. cbn. set_solver.
Qed.

Lemma start_pool m : same_setup m (st (start m)) /\ tasks_ (st (start m)) = tasks_ m.
Proof.
  unfold start, start_wait. destruct (STATE_eqb (state_ m) STOPPED);
    [split; [repeat split | reflexivity] |].
  destruct (STATE_eqb (state_ m) UNINITIALIZED).
  - destruct (threadFactory_ m); [| split; [repeat split | reflexivity]].
    cbn [state_ set_state STATE_eqb after st ret]. split; [repeat split | reflexivity].
  - destruct (STATE_eqb (state_ m) STARTING); split; try reflexivity; repeat split.
Qed.

(** Every segment of the interleaving is of one of three kinds. *)
Lemma exec_cases a w s w' :
  exec a w = Some (s, w') ->
  tame (mgr w) (mgr w')
  \/ (pool_step (mgr w) (mgr w')
      /\ ((exists c now, a = Do c now
             /\ match c with
                | C_addWorker _ | C_removeWorker _ | C_stop => True
                | _ => False
                end)
          \/ workerMaxCount_ (mgr w') = workerMaxCount_ (mgr w)))
  \/ (exists v now, a = Do (C_pendingTaskCountMax v) now
        /\ mgr w' = set_pendingTaskCountMax v (mgr w))
  \/ (exists b now, a = Do (C_setExpireCallback b) now
        /\ mgr w' = set_expireCallback b (mgr w))
  \/ (exists v now, a = Do (C_threadFactory v) now
        /\ (mgr w' = mgr w
            \/ (mgr w' = set_threadFactory v (mgr w)
                /\ forall f, threadFactory_ (mgr w) = Some f ->
                     exists f', v = Some f' /\ isDetached f' = isDetached f))).
Proof.
  destruct a as [c now | i timedout now]; cbn [exec].
  - destruct (settles (call c now (mgr w))) eqn:Hset; [| discriminate].
    intros H. injection H as <- <-. cbn [mgr].
    pose proof (call_tame c now (mgr w)) as Ht.
    destruct c; try (left; exact Ht); cbn [call] in *.
    + left. destruct (start_pool (mgr w)) as [Hs Hq].
      apply tame_shrink; [exact Hs | rewrite Hq; reflexivity].
    + right. left. split; [apply stop_pool |]. left. eauto.
    + do 4 right. exists value, now. split; [reflexivity |].
      unfold threadFactory in *.
      destruct (threadFactory_ (mgr w)) as [cur|] eqn:Hf.
      * destruct value as [v|]; [| discriminate].
        destruct (negb (eqb (isDetached cur) (isDetached v))) eqn:Hd;
          [left; reflexivity |].
        right. split; [reflexivity |]. intros f Hf'. injection Hf' as <-.
        exists v. split; [reflexivity |].
        apply negb_false_iff, eqb_prop in Hd. congruence.
      * right. split; [reflexivity |]. intros f Hf'. discriminate.
    + right. right. left. eauto.
    + do 3 right. left. eauto.
    + right. left. split; [apply addWorker_pool |]. left. eauto.
    + right. left. split; [apply removeWorkersUnderLock_pool |]. left. eauto.
  - destruct (parked w !! i) as [k|]; [| discriminate].
    destruct (settles (resume k timedout now (mgr w))); [| discriminate].
    intros H. injection H as <- <-. cbn [mgr].
    pose proof (resume_tame k timedout now (mgr w)) as Ht.
    destruct k; try (left; exact Ht). cbn [resume].
    right. left. unfold removeWorkers_resume. split.
    + destruct stopping; [apply then_stopped_pool |];
        apply removeWorkers_wait_pool.
    + right. destruct (removeWorkers_wait_spec (mgr w)) as [Hm _].
      destruct stopping; [| exact Hm].
      unfold then_stopped. destruct (res (removeWorkers_wait (mgr w)));
        try exact Hm. destruct k; exact Hm.
Qed.









(** X20. Who changes the configuration.  In any segment of the
    interleaving the cap changes only in a call of [pendingTaskCountMax],
    the expire callback only in a call of [setExpireCallback], the factory
    only in a call of [threadFactory], and [workerMaxCount_] only in a call
    of [addWorker], [removeWorker] or [stop]: no worker, no producer and
    no thread coming back from a wait changes any of them. *)
Theorem configuration_changes_only_by_setters (a : Action) (w : World)
    (s : Seg) (w' : World) :
  exec a w = Some (s, w') ->
  ((forall v now, a <> Do (C_pendingTaskCountMax v) now) ->
     pendingTaskCountMax_ (mgr w') = pendingTaskCountMax_ (mgr w))
  /\ ((forall b now, a <> Do (C_setExpireCallback b) now) ->
      expireCallback_ (mgr w') = expireCallback_ (mgr w))
  /\ ((forall v now, a <> Do (C_threadFactory v) now) ->
      threadFactory_ (mgr w') = threadFactory_ (mgr w))
  /\ ((forall n now, a <> Do (C_addWorker n) now) ->
      (forall n now, a <> Do (C_removeWorker n) now) ->
      (forall now, a <> Do C_stop now) ->
      workerMaxCount_ (mgr w') = workerMaxCount_ (mgr w)).
Proof.
  intros H.
  destruct (exec_cases a w s w' H)
    as [[(H1 & H2 & H3 & H4 & _) _]
       | [[(_ & H1 & H2 & H3 & _) Hmax]
         | [(v & now & -> & ->) | [(b & now & -> & ->)
           | (v & now & -> & [-> | [-> _]])]]]].
  - repeat split; intros; assumption.
  - split; [intros; assumption |]. split; [intros; assumption |].
    split; [intros; assumption |]. intros Ha Hr Hs.
    destruct Hmax as [(c & now & -> & Hc) | Hmax]; [| exact Hmax].
    exfalso. destruct c; try exact Hc.
    + eapply Hs. reflexivity.
    + eapply Ha. reflexivity.
    + eapply Hr. reflexivity.
  - split; [| repeat split].
    intros Hv. exfalso. eapply Hv. reflexivity.
  - split; [reflexivity |]. split; [| repeat split].
    intros Hv. exfalso. eapply Hv. reflexivity.
  - repeat split.
  - split; [reflexivity |]. split; [reflexivity |]. split; [| reflexivity].
    intros Hv. exfalso. eapply Hv. reflexivity.
Qed.

Lemma configuration_changes_only_by_setters_witness :
  pendingTaskCountMax_ (st (Worker.resume 1%positive 60 stale_manager))
  = pendingTaskCountMax_ stale_manager
  /\ workerMaxCount_ (st (Worker.resume 1%positive 60 stale_manager))
     = workerMaxCount_ stale_manager.
Proof.
  destruct (configuration_changes_only_by_setters
              (Wake 0 false 60)
              (mkWorld stale_manager [K_task 1%positive (Task.mk 7%nat Task.EXECUTING None)])
              (Worker.resume 1%positive 60 stale_manager)
              (mkWorld (st (Worker.resume 1%positive 60 stale_manager))
                 (delete 0%nat [K_task 1%positive (Task.mk 7%nat Task.EXECUTING None)]
                  ++ leftover (Worker.resume 1%positive 60 stale_manager)
                  ++ started (evs (Worker.resume 1%positive 60 stale_manager))))
              eq_refl)
    as (H1 & _ & _ & H4).
  split.
  - apply H1. discriminate.
  - apply H4; discriminate.
Defined.










(** ** expiredCount_ only counts tasks that left the queue *)
















